(** * Upload middleware and cumulative-size ledger (updatedcode.js)

    A shallow embedding of the module's functions:
    [getCumulativeSize], [updateCumulativeSize], [storage.filename],
    [fileFilter], the [upload] limits, [handleFileUpload] and
    [deleteReportFile].

    Conventions.
    - A JavaScript number that holds a byte count or a time stamp is an
      integer in the exactly representable range and is modelled in [Z];
      [NaN] is kept as a separate case because the code can produce it.
    - The file system is a finite map from resolved paths to nodes.
    - An [async] function is a computation in a state-and-exception monad:
      a rejected promise is the [inl] result, a fulfilled one the [inr]. *)

From Stdlib Require Import ZArith String Ascii List QArith Qround.
From Stdlib Require Import DecimalString DecimalPos DecimalZ.
From Stdlib.Strings Require Import Byte.
From stdpp Require Import gmap strings.

Set Warnings "-register-all".

Local Open Scope string_scope.
Local Open Scope Z_scope.

(** ** JavaScript values *)

Inductive number :=
  | Num (z : Z)
  | NaN.

(** The values [JSON.parse] can return. *)
Inductive value :=
  | VNull
  | VBool (b : bool)
  | VNumber (n : Z)
  | VString (s : string)
  | VArray (items : list value)
  | VObject (props : list (string * value)).

(** The result of the binary [+] before [Math.max] coerces it. *)
Inductive primitive :=
  | PNum (x : number)
  | PStr (s : string).

Inductive errno := ENOENT | EACCES | EISDIR.

Inductive exn :=
  | FsError (code : errno)
  | SyntaxError
  | TypeError.

(** ToBoolean. *)
Definition truthy (v : value) : bool :=
  match v with
  | VNull => false
  | VBool b => b
  | VNumber n => negb (n =? 0)
  | VString s => negb (String.length s =? 0)%nat
  | VArray _ => true
  | VObject _ => true
  end.

(** [o[key]] on an object built by [JSON.parse]: a later duplicate key
    overwrites an earlier one. *)
Fixpoint own_property (key : string) (props : list (string * value)) : option value :=
  match props with
  | [] => None
  | (k, v) :: rest =>
      match own_property key rest with
      | Some v' => Some v'
      | None => if String.eqb k key then Some v else None
      end
  end.

(** [parsed.totalSize]: a [TypeError] on [null], [undefined] ([None]) on
    every value that has no such property. *)
Definition get_totalSize (parsed : value) : exn + option value :=
  match parsed with
  | VNull => inl TypeError
  | VObject props => inr (own_property "totalSize" props)
  | _ => inr None
  end.

(** [x || dflt]. *)
Definition js_or (x : option value) (dflt : value) : value :=
  match x with
  | Some v => if truthy v then v else dflt
  | None => dflt
  end.

(** Number::toString on an integer. *)
Definition NumberToString (n : Z) : string :=
  NilZero.string_of_int (Z.to_int n).

Definition dquote : string := String "034"%char EmptyString.

(** [JSON.stringify({ totalSize: x })]; a [NaN] is serialised as [null]. *)
Definition JSON_stringify_totalSize (x : number) : string :=
  "{" +:+ dquote +:+ "totalSize" +:+ dquote +:+ ":" +:+
  match x with
  | Num n => NumberToString n
  | NaN => "null"
  end +:+ "}".

(** [Math.max(0, x)] on a number. *)
Definition Math_max0 (x : number) : number :=
  match x with
  | Num z => Num (Z.max 0 z)
  | NaN => NaN
  end.

(** ** The file system *)

Inductive node :=
  | File (data : string) (readable writable : bool)
  | Directory (size : Z).

(** A disk maps the name a path resolves to, to what is there. *)
Abbreviation disk := (gmap string node).

(** ** Promises: state and exceptions *)

Definition M (S A : Type) : Type := S -> S * (exn + A).

#[global] Instance M_ret {S} : MRet (M S) := fun A x s => (s, inr x).

#[global] Instance M_bind {S} : MBind (M S) := fun A B f m s =>
  match m s with
  | (s', inl e) => (s', inl e)
  | (s', inr a) => f a s'
  end.

Definition throw {S A} (e : exn) : M S A := fun s => (s, inl e).

Definition try_catch {S A} (body : M S A) (handler : exn -> M S A) : M S A :=
  fun s =>
    match body s with
    | (s', inl e) => handler e s'
    | (s', inr a) => (s', inr a)
    end.

Definition of_result {S A} (r : exn + A) : M S A := fun s => (s, r).

(** [fs.readFile(path, 'utf-8')]. *)
Definition readFile (path : string) : M disk string := fun d =>
  match d !! path with
  | None => (d, inl (FsError ENOENT))
  | Some (Directory _) => (d, inl (FsError EISDIR))
  | Some (File data r _) => if r then (d, inr data) else (d, inl (FsError EACCES))
  end.

(** [fs.writeFile(path, data)]: creates the file or replaces its whole
    content. *)
Definition writeFile (path data : string) : M disk unit := fun d =>
  match d !! path with
  | None => (<[path := File data true true]> d, inr tt)
  | Some (Directory _) => (d, inl (FsError EISDIR))
  | Some (File _ r w) =>
      if w then (<[path := File data r w]> d, inr tt) else (d, inl (FsError EACCES))
  end.

Definition node_size (n : node) : Z :=
  match n with
  | File data _ _ => Z.of_nat (String.length data)
  | Directory size => size
  end.

(** [fs.stat(path)], of which only [size] is used. *)
Definition stat (path : string) : M disk Z := fun d =>
  match d !! path with
  | None => (d, inl (FsError ENOENT))
  | Some n => (d, inr (node_size n))
  end.

(** [fs.unlink(path)].  It fails on a missing path and on a directory; a
    regular file that cannot be removed (a directory without write
    permission, a read-only file system) is not among the disks of the
    model, so a property that needs the unlink to succeed says so. *)
Definition unlink (path : string) : M disk unit := fun d =>
  match d !! path with
  | None => (d, inl (FsError ENOENT))
  | Some (Directory _) => (d, inl (FsError EISDIR))
  | Some (File _ _ _) => (delete path d, inr tt)
  end.

(** ** Strings, regular expression and paths of the runtime *)

(** [String.prototype.toLowerCase] on the ASCII letters. *)
Definition lower_char (c : ascii) : ascii :=
  let n := nat_of_ascii c in
  if ((65 <=? n) && (n <=? 90))%nat then ascii_of_nat (n + 32) else c.

Fixpoint toLowerCase (s : string) : string :=
  match s with
  | EmptyString => EmptyString
  | String c rest => String (lower_char c) (toLowerCase rest)
  end.

Fixpoint starts_with (p s : string) : bool :=
  match p, s with
  | EmptyString, _ => true
  | String a p', String b s' => Ascii.eqb a b && starts_with p' s'
  | String _ _, EmptyString => false
  end.

(** [re.test(s)] for a regular expression that is a literal without
    anchors or flags: the literal occurs somewhere in [s]. *)
Fixpoint regexp_test (literal s : string) : bool :=
  starts_with literal s ||
  match s with
  | EmptyString => false
  | String _ rest => regexp_test literal rest
  end.

(** The loop variables of [path.extname] (POSIX flavour). *)
Record extname_state := {
  startDot : Z;
  startPart : Z;
  end_ : Z;
  matchedSlash : bool;
  preDotState : Z
}.

(** The loop of [path.extname], from the last character ([i] is its index)
    down to the first; [codes] lists the characters in that order. *)
Fixpoint extname_loop (codes : list ascii) (i : Z) (st : extname_state) : extname_state :=
  match codes with
  | [] => st
  | code :: more =>
      if Ascii.eqb code "/" then
        if negb (matchedSlash st) then
          {| startDot := startDot st; startPart := i + 1; end_ := end_ st;
             matchedSlash := matchedSlash st; preDotState := preDotState st |}
        else extname_loop more (i - 1) st
      else
        let st1 :=
          if end_ st =? -1 then
            {| startDot := startDot st; startPart := startPart st; end_ := i + 1;
               matchedSlash := false; preDotState := preDotState st |}
          else st in
        let st2 :=
          if Ascii.eqb code "." then
            if startDot st1 =? -1 then
              {| startDot := i; startPart := startPart st1; end_ := end_ st1;
                 matchedSlash := matchedSlash st1; preDotState := preDotState st1 |}
            else if negb (preDotState st1 =? 1) then
              {| startDot := startDot st1; startPart := startPart st1; end_ := end_ st1;
                 matchedSlash := matchedSlash st1; preDotState := 1 |}
            else st1
          else if negb (startDot st1 =? -1) then
            {| startDot := startDot st1; startPart := startPart st1; end_ := end_ st1;
               matchedSlash := matchedSlash st1; preDotState := -1 |}
          else st1 in
        extname_loop more (i - 1) st2
  end.

(** [path.extname(p)]: from the last dot of the last path component to its
    end, and empty when that component has no dot or only a leading one. *)
Definition extname (p : string) : string :=
  let st :=
    extname_loop (rev (list_ascii_of_string p)) (Z.of_nat (String.length p) - 1)
      {| startDot := -1; startPart := 0; end_ := -1;
         matchedSlash := true; preDotState := 0 |} in
  if (startDot st =? -1) || (end_ st =? -1) || (preDotState st =? 0) ||
     ((preDotState st =? 1) && (startDot st =? end_ st - 1) &&
      (startDot st =? startPart st + 1))
  then EmptyString
  else substring (Z.to_nat (startDot st)) (Z.to_nat (end_ st - startDot st)) p.

(** [path.join(dir, name)] on a directory and a file name. *)
Definition path_join (dir name : string) : string := dir +:+ "/" +:+ name.

(** [Math.round]: the nearest integer, a half rounded up. *)
Definition Math_round (x : Q) : Z := Qfloor (x + (1 # 2)).

(** ** Requests, files and responses *)

(** What the parser knows of a file when it consults the filter. *)
Record file_meta := {
  fieldname : string;
  originalname : string;
  mimetype : string
}.

(** One file part of a multipart body. *)
Record upload_part := {
  part_meta : file_meta;
  content : string
}.

(** [req.file] after the storage engine has written the file. *)
Record req_file := {
  meta : file_meta;
  destination : string;
  filename : string;
  path : string;
  size : Z
}.

(** The error handed to the callback of [singleUpload]. *)
Inductive upload_error :=
  | MulterError (code message : string)
  | PlainError (message : string).

Record response_body := {
  status : bool;
  status_code : Z;
  message : string
}.

(** What the handler does that is visible from outside the module. *)
Inductive event :=
  | Called_updateCumulativeSize (delta : Z)
  | Responded (http_status : Z) (body : response_body)
  | Called_next.

Record world := {
  files : disk;
  sent : list event
}.

Definition log (e : event) : M world unit := fun w =>
  ({| files := files w; sent := sent w ++ [e] |}, inr tt).

(** Runs a file-system computation inside the handler. *)
Definition on_disk {A} (m : M disk A) : M world A := fun w =>
  let (d, r) := m (files w) in ({| files := d; sent := sent w |}, r).

(** [res.status(code).json(body)]. *)
Definition res_status_json (code : Z) (body : response_body) : M world unit :=
  log (Responded code body).

Definition next : M world unit := log Called_next.

Definition CUMULATIVE_SIZE_FILE : string := "./cumulativeSize.json".

(** ** Readings of the specification, and instances of the runtime *)

(** The text [{"totalSize":<digits>}]. *)
Definition ledger_document (digits : string) : string :=
  "{" +:+ dquote +:+ "totalSize" +:+ dquote +:+ ":" +:+ digits +:+ "}".

(** Five bytes named [a b.txt] under a forged PDF MIME type. *)
Definition forged_text_part : upload_part :=
  {| part_meta := {| fieldname := "report_pdf";
                     originalname := "a b.txt";
                     mimetype := "application/pdf" |};
     content := "hello" |}.

(** A five-byte PDF. *)
Definition small_pdf_part : upload_part :=
  {| part_meta := {| fieldname := "report_pdf";
                     originalname := "report.pdf";
                     mimetype := "application/pdf" |};
     content := "%PDF-" |}.

Definition fresh_world : world := {| files := ∅; sent := [] |}.

(** A disk whose only file is a ledger that holds 500. *)
Definition ledger_500 : disk :=
  {[ CUMULATIVE_SIZE_FILE := File (ledger_document "500") true true ]}.

(** [1 - 2^-52], a double just below 1 that [Math.random()] may return. *)
Definition random_near_one : Q := 4503599627370495 # 4503599627370496.

(** The clamped running totals of a sequence of deltas. *)
Fixpoint clamped_totals (total : Z) (deltas : list Z) : list Z :=
  match deltas with
  | [] => []
  | delta :: rest =>
      let total' := Z.max 0 (total + delta) in total' :: clamped_totals total' rest
  end.

Fixpoint strip_prefix (p s : string) : option string :=
  match p, s with
  | EmptyString, _ => Some s
  | String a p', String b s' => if Ascii.eqb a b then strip_prefix p' s' else None
  | String _ _, EmptyString => None
  end.

Fixpoint strip_last (s : string) : option (string * ascii) :=
  match s with
  | EmptyString => None
  | String c EmptyString => Some (EmptyString, c)
  | String c rest =>
      match strip_last rest with
      | Some (body, l) => Some (String c body, l)
      | None => None
      end
  end.

(** A [JSON.parse] restricted to the documents the ledger writes. *)
Definition ledger_parse (s : string) : option value :=
  match strip_prefix ("{" +:+ dquote +:+ "totalSize" +:+ dquote +:+ ":") s with
  | Some rest =>
      match strip_last rest with
      | Some (digits, c) =>
          if Ascii.eqb c "}" then
            match NilZero.int_of_string digits with
            | Some d => Some (VObject [("totalSize", VNumber (Z.of_int d))])
            | None => None
            end
          else None
      | None => None
      end
  | None => None
  end.

(** Coercions of a runtime in which every non-numeric sum is [NaN]. *)
Definition no_ToPrimitive (v : value) : option string := None.
Definition nan_StringToNumber (s : string) : number := NaN.

(** ** The helpers the module exports beside the handler *)

(** The ASCII members of the class [\s]: tab, line feed, vertical tab, form
    feed, carriage return and space.  Characters are bytes here, so the
    members of the class beyond ASCII are out of the model. *)
Definition is_whitespace (c : ascii) : bool :=
  let n := nat_of_ascii c in
  (((9 <=? n) && (n <=? 13)) || (n =? 32))%nat.

(** [s.replace(/\s+/g, '_')]: every maximal run of white space becomes one
    underscore; [in_run] tells that the previous character was white space. *)
Fixpoint replace_whitespace_runs (in_run : bool) (s : string) : string :=
  match s with
  | EmptyString => EmptyString
  | String c rest =>
      if is_whitespace c then
        if in_run then replace_whitespace_runs true rest
        else String "_" (replace_whitespace_runs true rest)
      else String c (replace_whitespace_runs false rest)
  end.

(** Whether the scan of [replace_whitespace_runs] is inside a run of white
    space once it has passed [s]. *)
Fixpoint in_run_after (in_run : bool) (s : string) : bool :=
  match s with
  | EmptyString => in_run
  | String c rest => in_run_after (is_whitespace c) rest
  end.

Definition all_chars (P : ascii -> bool) (s : string) : bool :=
  forallb P (list_ascii_of_string s).

(** [generateUniqueFileName], given the value of [Date.now()]. *)
Definition generateUniqueFileName (now : Z) (originalName : string) : string :=
  let sanitizedOriginalName := replace_whitespace_runs false originalName in
  let timestamp := now in
  let uniqueName := NumberToString timestamp +:+ "-" +:+ sanitizedOriginalName in
  uniqueName.

Definition hex_digit (n : N) : ascii :=
  match n with
  | 0%N => "0" | 1%N => "1" | 2%N => "2" | 3%N => "3"
  | 4%N => "4" | 5%N => "5" | 6%N => "6" | 7%N => "7"
  | 8%N => "8" | 9%N => "9" | 10%N => "a" | 11%N => "b"
  | 12%N => "c" | 13%N => "d" | 14%N => "e" | _ => "f"
  end%char.

Definition hex_of_byte (b : byte) : string :=
  let n := Byte.to_N b in
  String (hex_digit (n / 16)) (String (hex_digit (n mod 16)) EmptyString).

(** [buf.toString('hex', start, end)]: two lower-case hexadecimal digits for
    each byte of the slice, which stops at the end of the buffer. *)
Definition Buffer_toString_hex (buf : list byte) (start end_ : nat) : string :=
  String.concat "" (map hex_of_byte (take (end_ - start) (drop start buf))).

(** [isValidJpeg]; the promise it returns is always fulfilled. *)
Definition isValidJpeg (fileBytes : list byte) : bool :=
  let header := Buffer_toString_hex fileBytes 0 2 in
  String.eqb header "ffd8".

(** The callback of the earlier [handleFileUpload] that the file keeps
    after the current one: the same translation of errors, no ledger. *)
Definition upload_callback_original (err : option upload_error) : M world unit :=
  match err with
  | Some (MulterError code message) =>
      if String.eqb code "LIMIT_UNEXPECTED_FILE" then
        res_status_json 400
          {| status := false; status_code := 400;
             message := "Only a single file can be uploaded for report_pdf." |}
      else
        res_status_json 400
          {| status := false; status_code := 400; message := message |}
  | Some (PlainError message) =>
      if String.eqb message "Invalid file type. Only PDF files are allowed." then
        res_status_json 400
          {| status := false; status_code := 400;
             message := "Invalid file type. Only PDF files are accepted." |}
      else
        res_status_json 500
          {| status := false; status_code := 500;
             message := "An error occurred during file upload." |}
  | None => next
  end.

(** A [JSON.parse] that finds a ledger whose [totalSize] is the text
    [abc]. *)
Definition text_ledger_parse (s : string) : option value :=
  Some (VObject [("totalSize", VString "abc")]).

(** A [JSON.parse] that finds the document [null]. *)
Definition null_parse (s : string) : option value := Some VNull.

(** [req.file] for a stored five-byte upload. *)
Definition small_req_file : req_file :=
  {| meta := part_meta small_pdf_part;
     destination := "/srv/reports";
     filename := "1700000000000-42-a.pdf";
     path := "/srv/reports/1700000000000-42-a.pdf";
     size := 5 |}.

(** A disk whose ledger can be written but not read, and one whose ledger
    is read-only, each beside one stored report. *)
Definition stored_report : string := "/srv/reports/1700000000000-42-a.pdf".

Definition write_only_ledger : disk :=
  {[ CUMULATIVE_SIZE_FILE := File (ledger_document "500") false true ]}.

Definition read_only_ledger_disk : disk :=
  <[ stored_report := File "%PDF-" true true ]>
    {[ CUMULATIVE_SIZE_FILE := File (ledger_document "500") true false ]}.

Definition report_and_ledger_500 : disk :=
  <[ stored_report := File "%PDF-" true true ]> ledger_500.

(** [Number.MAX_SAFE_INTEGER], and [Number.isSafeInteger] on an integer:
    a sum of safe integers that is itself safe is exact in the runtime's
    arithmetic, and is printed and parsed back digit by digit. *)
Definition Number_MAX_SAFE_INTEGER : Z := 9007199254740991.

Definition Number_isSafeInteger (z : Z) : bool :=
  (- Number_MAX_SAFE_INTEGER <=? z) && (z <=? Number_MAX_SAFE_INTEGER).

(** Every total, delta and sum that a sequence of updates meets from the
    total [total] on is a safe integer. *)
Fixpoint sums_safe (total : Z) (deltas : list Z) : bool :=
  match deltas with
  | [] => Number_isSafeInteger total
  | delta :: rest =>
      Number_isSafeInteger total && Number_isSafeInteger delta &&
      Number_isSafeInteger (total + delta) &&
      sums_safe (Z.max 0 (total + delta)) rest
  end.

(** What the ledger file says, told from the file itself: it is absent and
    [n] is 0, or it is a readable regular file whose whole content is the
    text [{"totalSize":n}]. *)
Definition ledger_holds (d : disk) (n : Z) : bool :=
  match d !! CUMULATIVE_SIZE_FILE with
  | None => n =? 0
  | Some (File data r _) => String.eqb data (ledger_document (NumberToString n)) && r
  | Some (Directory _) => false
  end.

(** A file part as the client sends it: the field, the file name and the
    type it declares, in the letter case of the request. *)
Record declared_file := {
  declared_field : string;
  declared_name : string;
  declared_type : string;
  declared_content : string
}.

(** Modelled from the spec: the file object the upload library, which is
    not part of the repository, makes of a part before it consults the
    filter.  The spec has the MIME type matched without regard to letter
    case although the filter's own test is case-sensitive: the library hands
    over the declared type in lower case, the field and the file name as
    they were sent. *)
Definition file_of_declared (p : declared_file) : upload_part :=
  {| part_meta := {| fieldname := declared_field p;
                     originalname := declared_name p;
                     mimetype := toLowerCase (declared_type p) |};
     content := declared_content p |}.

(** A resolution of paths to the names the disk gives to files, for a disk
    that writes the files of the working directory with a leading [./]. *)
Definition resolve_in_cwd (p : string) : string :=
  if starts_with "/" p || starts_with "./" p then p else "./" +:+ p.

(** The disks above with the upload directory in place. *)
Definition served_ledger_500 : disk :=
  <[ "/srv/reports" := Directory 4096 ]> ledger_500.


Definition served_report_and_ledger_500 : disk :=
  <[ "/srv/reports" := Directory 4096 ]> report_and_ledger_500.

Section Middleware.

(** The runtime's [JSON.parse]; [None] is a thrown [SyntaxError]. *)
Variable JSON_parse : string -> option value.

(** ToPrimitive on an array or object ([None]: it throws a [TypeError])
    and StringToNumber, both of the runtime. *)
Variable ToPrimitive_object : value -> option string.
Variable StringToNumber : string -> number.

(** The constant imported from [./constants.js]. *)
Variable reportUploadDirectory : string.

(** [JSON.parse] reads back what [JSON.stringify] wrote. *)
Hypothesis JSON_parse_stringify : forall n : Z,
  JSON_parse (JSON_stringify_totalSize (Num n))
  = Some (VObject [("totalSize", VNumber n)]).

(** The same for the safe integers only, which is what the runtime's
    [JSON.parse] keeps digit by digit. *)
Hypothesis JSON_parse_stringify_safe : forall n : Z,
  Number_isSafeInteger n = true ->
  JSON_parse (JSON_stringify_totalSize (Num n))
  = Some (VObject [("totalSize", VNumber n)]).

Definition JSON_parse_M {S} (data : string) : M S value :=
  match JSON_parse data with
  | Some v => mret v
  | None => throw SyntaxError
  end.

(** [currentSize + delta] with a number on the right.  The sum of two
    numbers is the integer sum, which is what the runtime computes as long
    as the operands and the sum are safe integers. *)
Definition js_add (l : value) (r : Z) : exn + primitive :=
  match l with
  | VNull => inr (PNum (Num (0 + r)))
  | VBool b => inr (PNum (Num ((if b then 1 else 0) + r)))
  | VNumber n => inr (PNum (Num (n + r)))
  | VString s => inr (PStr (s +:+ NumberToString r))
  | VArray _ | VObject _ =>
      match ToPrimitive_object l with
      | Some s => inr (PStr (s +:+ NumberToString r))
      | None => inl TypeError
      end
  end.

(** [Math.max(0, x)]. *)
Definition Math_max (x : primitive) : number :=
  match x with
  | PNum y => Math_max0 y
  | PStr s => Math_max0 (StringToNumber s)
  end.

Definition getCumulativeSize : M disk value :=
  try_catch
    (data ← readFile CUMULATIVE_SIZE_FILE;
     parsed ← JSON_parse_M data;
     totalSize ← of_result (get_totalSize parsed);
     mret (js_or totalSize (VNumber 0)))
    (fun err => mret (VNumber 0)).

Definition updateCumulativeSize (delta : Z) : M disk number :=
  currentSize ← getCumulativeSize;
  sum ← of_result (js_add currentSize delta);
  let newSize := Math_max sum in
  _ ← writeFile CUMULATIVE_SIZE_FILE (JSON_stringify_totalSize newSize);
  mret newSize.

(** [storage.filename], given the values of [Date.now()] and
    [Math.random()]. *)
Definition storage_filename (now : Z) (random : Q) (file : file_meta) : string :=
  let uniqueSuffix :=
    NumberToString now +:+ "-" +:+
    NumberToString (Math_round (random * inject_Z 1000000000)) in
  uniqueSuffix +:+ "-" +:+ originalname file.

Definition storage_destination (file : file_meta) : string := reportUploadDirectory.

Definition filetypes : string := "pdf".

(** [fileFilter]: [inr true] is [cb(null, true)], [inl e] is [cb(e)]. *)
Definition fileFilter (file : file_meta) : upload_error + bool :=
  let mimetype := regexp_test filetypes (mimetype file) in
  let extname := regexp_test filetypes (toLowerCase (extname (originalname file))) in
  if mimetype && extname then inr true
  else inl (PlainError "Invalid file type. Only PDF files are allowed.").

Definition limits_fileSize : Z := 20 * 1024 * 1024.

(** Modelled from the spec: [upload.single(field)], the single-file
    multipart parser of the upload library, which is not part of the
    repository.  A file under another field or a second file is the
    "unexpected file" error; the filter runs before storage begins; a file
    over the size limit is the parser's size-limit error; an accepted file
    is written below the destination directory under the name the storage
    policy generates, and a rejected upload leaves nothing behind. *)
Definition upload_single (field : string) (now : Z) (random : Q)
    (body : list upload_part) (d : disk)
    : disk * (option upload_error * option req_file) :=
  match body with
  | [] => (d, (None, None))
  | part :: more =>
      let file := part_meta part in
      if negb (String.eqb (fieldname file) field) then
        (d, (Some (MulterError "LIMIT_UNEXPECTED_FILE" "Unexpected field"), None))
      else
        match fileFilter file with
        | inl e => (d, (Some e, None))
        | inr false => (d, (None, None))
        | inr true =>
            let bytes := Z.of_nat (String.length (content part)) in
            if limits_fileSize <? bytes then
              (d, (Some (MulterError "LIMIT_FILE_SIZE" "File too large"), None))
            else
              match more with
              | _ :: _ =>
                  (d, (Some (MulterError "LIMIT_UNEXPECTED_FILE" "Unexpected field"), None))
              | [] =>
                  let name := storage_filename now random file in
                  let dir := storage_destination file in
                  let stored := path_join dir name in
                  (<[stored := File (content part) true true]> d,
                   (None,
                    Some {| meta := file; destination := dir; filename := name;
                            path := stored; size := bytes |}))
              end
        end
  end.

(** The callback handed to [singleUpload]. *)
Definition upload_callback (err : option upload_error) (file : option req_file)
    : M world unit :=
  match err with
  | Some (MulterError code message) =>
      if String.eqb code "LIMIT_UNEXPECTED_FILE" then
        res_status_json 400
          {| status := false; status_code := 400;
             message := "Only a single file can be uploaded for report_pdf." |}
      else
        res_status_json 400
          {| status := false; status_code := 400; message := message |}
  | Some (PlainError message) =>
      if String.eqb message "Invalid file type. Only PDF files are allowed." then
        res_status_json 400
          {| status := false; status_code := 400;
             message := "Invalid file type. Only PDF files are accepted." |}
      else
        res_status_json 500
          {| status := false; status_code := 500;
             message := "An error occurred during file upload." |}
  | None =>
      _ ← match file with
          | Some f =>
              if negb (size f =? 0) then
                _ ← log (Called_updateCumulativeSize (size f));
                _ ← on_disk (updateCumulativeSize (size f));
                mret tt
              else mret tt
          | None => mret tt
          end;
      next
  end.

Definition handleFileUpload (now : Z) (random : Q) (body : list upload_part)
    : M world unit := fun w =>
  let '(d, (err, file)) := upload_single "report_pdf" now random body (files w) in
  upload_callback err file {| files := d; sent := sent w |}.



(** The [console.error] of the handler writes to no state of the model. *)
Definition deleteReportFile (filePath : string) : M disk bool :=
  try_catch
    (stats_size ← stat filePath;
     _ ← unlink filePath;
     _ ← updateCumulativeSize (- stats_size);
     mret true)
    (fun err => mret false).

(** The disks after each call of a sequence of updates; [None] as soon as
    one call is rejected. *)
Fixpoint disks_after_updates (deltas : list Z) (d : disk) : option (list disk) :=
  match deltas with
  | [] => Some []
  | delta :: rest =>
      match updateCumulativeSize delta d with
      | (d', inr _) => cons d' <$> disks_after_updates rest d'
      | (_, inl _) => None
      end
  end.

(** The ledger file can be created or overwritten. *)
Definition ledger_writable (d : disk) : bool :=
  match d !! CUMULATIVE_SIZE_FILE with
  | None => true
  | Some (File _ _ w) => w
  | Some (Directory _) => false
  end.

(** The node [fs.writeFile] leaves at the ledger's path. *)
Definition ledger_node (d : disk) (data : string) : node :=
  match d !! CUMULATIVE_SIZE_FILE with
  | Some (File _ r w) => File data r w
  | _ => File data true true
  end.



(** The same two calls one after the other. *)
Definition successive_updates (delta1 delta2 : Z) : M disk (number * number) :=
  newSize1 ← updateCumulativeSize delta1;
  newSize2 ← updateCumulativeSize delta2;
  mret (newSize1, newSize2).

(** The earlier [handleFileUpload]. *)
Definition handleFileUpload_original (now : Z) (random : Q) (body : list upload_part)
    : M world unit := fun w =>
  let '(d, (err, file)) := upload_single "report_pdf" now random body (files w) in
  upload_callback_original err {| files := d; sent := sent w |}.

(** The ledger file, if there is one, can be read. *)
Definition ledger_readable (d : disk) : bool :=
  match d !! CUMULATIVE_SIZE_FILE with
  | None => true
  | Some (File _ r _) => r
  | Some (Directory _) => false
  end.

(** ** The size ledger *)

Ltac run := unfold mbind, M_bind, mret, M_ret, throw, of_result; simpl.

Lemma getCumulativeSize_unfold (d : disk) :
  getCumulativeSize d =
  (d, inr match d !! CUMULATIVE_SIZE_FILE with
          | Some (File data true _) =>
              match JSON_parse data with
              | Some parsed =>
                  match get_totalSize parsed with
                  | inr totalSize => js_or totalSize (VNumber 0)
                  | inl _ => VNumber 0
                  end
              | None => VNumber 0
              end
          | _ => VNumber 0
          end).
Proof.
  unfold getCumulativeSize, try_catch, readFile, JSON_parse_M. run.
  destruct (d !! CUMULATIVE_SIZE_FILE) as [[data [] w | sz] |]; simpl; try reflexivity.
  destruct (JSON_parse data) as [parsed |]; simpl; try reflexivity.
  destruct (get_totalSize parsed); reflexivity.
Qed.

Lemma getCumulativeSize_total (d : disk) :
  exists v, getCumulativeSize d = (d, inr v).
Proof. rewrite getCumulativeSize_unfold. eauto. Qed.

Lemma getCumulativeSize_written (d : disk) (n : Z) (r w : bool) :
  d !! CUMULATIVE_SIZE_FILE = Some (File (JSON_stringify_totalSize (Num n)) r w) ->
  r = true ->
  getCumulativeSize d = (d, inr (VNumber n)).
Proof.
  intros Hd ->. rewrite getCumulativeSize_unfold, Hd, JSON_parse_stringify.
  simpl. destruct (Z.eqb_spec n 0) as [-> |]; reflexivity.
Qed.

Lemma updateCumulativeSize_numeric (delta n : Z) (d : disk) :
  getCumulativeSize d = (d, inr (VNumber n)) ->
  updateCumulativeSize delta d =
  match writeFile CUMULATIVE_SIZE_FILE
          (JSON_stringify_totalSize (Num (Z.max 0 (n + delta)))) d with
  | (d', inr _) => (d', inr (Num (Z.max 0 (n + delta))))
  | (d', inl e) => (d', inl e)
  end.
Proof.
  intros Hread. unfold updateCumulativeSize. run. rewrite Hread. simpl.
  destruct (writeFile _ _ d) as [d' [e | []]]; reflexivity.
Qed.

Lemma writeFile_ledger (data : string) (d : disk) :
  writeFile CUMULATIVE_SIZE_FILE data d =
  if ledger_writable d
  then (<[CUMULATIVE_SIZE_FILE := ledger_node d data]> d, inr tt)
  else (d, inl (FsError match d !! CUMULATIVE_SIZE_FILE with
                        | Some (Directory _) => EISDIR
                        | _ => EACCES
                        end)).
Proof.
  unfold writeFile, ledger_writable, ledger_node.
  destruct (d !! CUMULATIVE_SIZE_FILE) as [[data' r [] | sz] |]; reflexivity.
Qed.

Lemma updateCumulativeSize_step (delta n : Z) (d : disk) :
  getCumulativeSize d = (d, inr (VNumber n)) ->
  ledger_writable d = true ->
  exists r,
    ledger_node d (JSON_stringify_totalSize (Num (Z.max 0 (n + delta)))) =
      File (JSON_stringify_totalSize (Num (Z.max 0 (n + delta)))) r true /\
    updateCumulativeSize delta d =
      (<[CUMULATIVE_SIZE_FILE :=
           File (JSON_stringify_totalSize (Num (Z.max 0 (n + delta)))) r true]> d,
       inr (Num (Z.max 0 (n + delta)))).
Proof.
  intros Hread Hw.
  rewrite (updateCumulativeSize_numeric _ _ _ Hread), writeFile_ledger, Hw.
  unfold ledger_writable in Hw. unfold ledger_node.
  destruct (d !! CUMULATIVE_SIZE_FILE) as [[data r w | sz] |]; try discriminate.
  - subst w. now exists r.
  - now exists true.
Qed.

Lemma getCumulativeSize_after_write (d : disk) (t : Z) (r w : bool) :
  let d' := <[CUMULATIVE_SIZE_FILE := File (JSON_stringify_totalSize (Num t)) r w]> d in
  getCumulativeSize d' = (d', inr (VNumber (if r then t else 0))).
Proof.
  intros d'. destruct r.
  - apply (getCumulativeSize_written d' t true w); [| reflexivity].
    apply lookup_insert_eq.
  - rewrite getCumulativeSize_unfold. unfold d'. now rewrite lookup_insert_eq.
Qed.

Lemma ledger_writable_after_write (d : disk) (data : string) (r : bool) :
  ledger_writable (<[CUMULATIVE_SIZE_FILE := File data r true]> d) = true.
Proof. unfold ledger_writable. now rewrite lookup_insert_eq. Qed.

(** C3: from a ledger that reads as a number and whose file can be
    written, every call of a sequence of [updateCumulativeSize] calls with
    arbitrary deltas succeeds and leaves [{"totalSize":t}] with [0 <= t] in
    the ledger file; adding -1000 to an absent ledger or to one that holds 0
    leaves 0. *)
Theorem ledger_never_negative (deltas : list Z) (d : disk) (n : Z) :
  getCumulativeSize d = (d, inr (VNumber n)) ->
  ledger_writable d = true ->
  (exists ds,
     disks_after_updates deltas d = Some ds /\
     length ds = length deltas /\
     Forall (fun d' : disk =>
               exists t r w,
                 0 <= t /\
                 d' !! CUMULATIVE_SIZE_FILE =
                   Some (File (ledger_document (NumberToString t)) r w))
            ds) /\
  updateCumulativeSize (-1000) (∅ : disk) =
    ({[CUMULATIVE_SIZE_FILE := File (ledger_document "0") true true]},
     inr (Num 0)) /\
  updateCumulativeSize (-1000)
    ({[CUMULATIVE_SIZE_FILE := File (ledger_document "0") true true]} : disk) =
    ({[CUMULATIVE_SIZE_FILE := File (ledger_document "0") true true]},
     inr (Num 0)).
Proof.
  intros Hread Hw. split; [| split].
  - revert d n Hread Hw.
    induction deltas as [| delta rest IH]; intros d n Hread Hw.
    + exists []. repeat split. constructor.
    + destruct (updateCumulativeSize_step delta n d Hread Hw) as (r & _ & Hupd).
      set (t := Z.max 0 (n + delta)) in *.
      set (d' := <[CUMULATIVE_SIZE_FILE := File (JSON_stringify_totalSize (Num t)) r true]> d) in *.
      destruct (IH d' (if r then t else 0)) as (ds & Hds & Hlen & Hall).
      * apply getCumulativeSize_after_write.
      * apply ledger_writable_after_write.
      * exists (d' :: ds). split; [| split].
        -- simpl. rewrite Hupd. fold d'. now rewrite Hds.
        -- simpl. now rewrite Hlen.
        -- constructor; [| exact Hall].
           exists t, r, true. split; [apply Z.le_max_l |].
           unfold d'. now rewrite lookup_insert_eq.
  - reflexivity.
  - rewrite (updateCumulativeSize_numeric _ 0), writeFile_ledger.
    + unfold ledger_writable, ledger_node. rewrite lookup_singleton_eq.
      rewrite insert_singleton_eq. reflexivity.
    + apply (getCumulativeSize_written _ 0 true true); [| reflexivity].
      now rewrite lookup_singleton_eq.
Qed.

(** ** Deletion *)

Lemma deleteReportFile_unfold (filePath : string) (d : disk) :
  deleteReportFile filePath d =
  match d !! filePath with
  | Some (File data _ _) =>
      match updateCumulativeSize (- Z.of_nat (String.length data)) (delete filePath d) with
      | (d', inr _) => (d', inr true)
      | (d', inl _) => (d', inr false)
      end
  | _ => (d, inr false)
  end.
Proof.
  unfold deleteReportFile, try_catch, stat, unlink.
  unfold mbind, M_bind, mret, M_ret.
  destruct (d !! filePath) as [[data r w | sz] |] eqn:E; simpl;
    rewrite ?E; try reflexivity.
  destruct (updateCumulativeSize _ _) as [d' [e | total]]; reflexivity.
Qed.

Lemma updateCumulativeSize_unwritable (delta : Z) (d : disk) :
  ledger_writable d = false ->
  exists e, updateCumulativeSize delta d = (d, inl e).
Proof.
  intros Hw. unfold updateCumulativeSize. run.
  rewrite getCumulativeSize_unfold.
  destruct (js_add _ delta) as [e | sum]; [now exists e |].
  rewrite writeFile_ledger, Hw. eauto.
Qed.

Lemma getCumulativeSize_other_path (filePath : string) (d : disk) (v : value) :
  filePath <> CUMULATIVE_SIZE_FILE ->
  getCumulativeSize d = (d, inr v) ->
  getCumulativeSize (delete filePath d) = (delete filePath d, inr v).
Proof.
  intros Hne. rewrite !getCumulativeSize_unfold, lookup_delete_ne by exact Hne.
  intros [= ->]. reflexivity.
Qed.

(** C10: there is a run of [deleteReportFile] in which the stat and the
    unlink succeed and the ledger adjustment fails: it returns [false], the
    file is gone from the disk, and the ledger file still holds the total it
    held before. *)
Theorem deleteReportFile_false_after_unlink :
  exists (filePath : string) (d d' : disk) (e : exn),
    stat filePath d = (d, inr 5) /\
    unlink filePath d = (delete filePath d, inr tt) /\
    updateCumulativeSize (- 5) (delete filePath d) = (delete filePath d, inl e) /\
    deleteReportFile filePath d = (d', inr false) /\
    d !! filePath = Some (File "%PDF-" true true) /\
    d' !! filePath = None /\
    d' !! CUMULATIVE_SIZE_FILE = d !! CUMULATIVE_SIZE_FILE /\
    d !! CUMULATIVE_SIZE_FILE = Some (File (ledger_document "500") true false).
Proof.
  set (filePath := "/srv/reports/1700000000000-42-a.pdf").
  set (d := (<[filePath := File "%PDF-" true true]>
             {[CUMULATIVE_SIZE_FILE := File (ledger_document "500") true false]}) : disk).
  assert (Hne : filePath <> CUMULATIVE_SIZE_FILE) by discriminate.
  assert (Hfile : d !! filePath = Some (File "%PDF-" true true))
    by apply lookup_insert_eq.
  assert (Hledger : d !! CUMULATIVE_SIZE_FILE
                    = Some (File (ledger_document "500") true false)).
  { unfold d. rewrite lookup_insert_ne by exact Hne. apply lookup_singleton_eq. }
  assert (Hw : ledger_writable (delete filePath d) = false).
  { unfold ledger_writable. rewrite lookup_delete_ne by exact Hne. now rewrite Hledger. }
  destruct (updateCumulativeSize_unwritable (- 5) _ Hw) as [e He].
  exists filePath, d, (delete filePath d), e.
  split; [unfold stat; now rewrite Hfile |].
  split; [unfold unlink; now rewrite Hfile |].
  split; [exact He |].
  split.
  { rewrite deleteReportFile_unfold, Hfile.
    change (- Z.of_nat (String.length "%PDF-")) with (- 5). now rewrite He. }
  split; [exact Hfile |].
  split; [apply lookup_delete_eq |].
  split; [apply lookup_delete_ne; exact Hne | exact Hledger].
Qed.

(** ** The upload handler *)

Lemma fileFilter_error (file : file_meta) (e : upload_error) :
  fileFilter file = inl e ->
  e = PlainError "Invalid file type. Only PDF files are allowed.".
Proof. unfold fileFilter. destruct (_ && _); congruence. Qed.

Lemma fileFilter_true_or_error (file : file_meta) :
  fileFilter file = inr true \/
  fileFilter file = inl (PlainError "Invalid file type. Only PDF files are allowed.").
Proof. unfold fileFilter. destruct (_ && _); auto. Qed.

(** C5: for every error the upload step hands over, the handler sends one
    JSON body [{ status: false, status_code, message }] under the HTTP
    status [status_code], which is 400 or 500, and does nothing else: 400
    and the fixed single-file message for the parser's unexpected-file code,
    400 and the parser's own text for any other parser error, 400 and the
    fixed invalid-type message for the filter's rejection, 500 and a generic
    message for any other error. *)
Theorem upload_callback_error_response
    (err : upload_error) (file : option req_file) (w : world) :
  exists code text,
    upload_callback (Some err) file w =
      ({| files := files w;
          sent := sent w ++
            [Responded code {| status := false; status_code := code; message := text |}] |},
       inr tt) /\
    (code = 400 \/ code = 500) /\
    (forall m, err = MulterError "LIMIT_UNEXPECTED_FILE" m ->
       code = 400 /\ text = "Only a single file can be uploaded for report_pdf.") /\
    (forall c m, err = MulterError c m -> c <> "LIMIT_UNEXPECTED_FILE" ->
       code = 400 /\ text = m) /\
    (forall f, fileFilter f = inl err ->
       code = 400 /\ text = "Invalid file type. Only PDF files are accepted.") /\
    (forall m, err = PlainError m ->
       m <> "Invalid file type. Only PDF files are allowed." ->
       code = 500 /\ text = "An error occurred during file upload.").
Proof.
  destruct err as [c m | m]; simpl.
  - destruct (String.eqb_spec c "LIMIT_UNEXPECTED_FILE") as [-> | Hc].
    + eexists _, _. split; [reflexivity |]. split; [now left |].
      split; [auto |]. split; [congruence |].
      split; [intros f Hf; apply fileFilter_error in Hf; discriminate |].
      discriminate.
    + eexists _, _. split; [reflexivity |]. split; [now left |].
      split; [intros m' [= -> _]; congruence |].
      split; [intros c' m' [= <- <-]; auto |].
      split; [intros f Hf; apply fileFilter_error in Hf; discriminate |].
      discriminate.
  - destruct (String.eqb_spec m "Invalid file type. Only PDF files are allowed.")
      as [-> | Hm].
    + eexists _, _. split; [reflexivity |]. split; [now left |].
      split; [discriminate |]. split; [discriminate |].
      split; [auto |]. intros m' [= <-]. congruence.
    + eexists _, _. split; [reflexivity |]. split; [now right |].
      split; [discriminate |]. split; [discriminate |].
      split; [| auto].
      intros f Hf. apply fileFilter_error in Hf. congruence.
Qed.

Lemma upload_single_error_disk
    (now : Z) (random : Q) (body : list upload_part) (d d' : disk)
    (e : upload_error) (file : option req_file) :
  upload_single "report_pdf" now random body d = (d', (Some e, file)) ->
  d' = d /\ file = None.
Proof.
  unfold upload_single. destruct body as [| part more]; [discriminate |].
  destruct (negb _); [now intros [= <- _ <-] |].
  destruct (fileFilter _) as [e' | []]; try (now intros [= <- _ <-]); try discriminate.
  destruct (_ <? _); [now intros [= <- _ <-] |].
  destruct more; [discriminate | now intros [= <- _ <-]].
Qed.

(** C8: an upload that the parser rejects gets one error response, with no
    call of [updateCumulativeSize] and no change to any file, the ledger
    included; a single file that the filter refuses gets the 400 invalid-type
    response and one over the size limit the parser's 400 response. *)
Theorem rejected_upload_leaves_ledger
    (now : Z) (random : Q) (body : list upload_part) (w : world)
    (d' : disk) (e : upload_error) (file : option req_file) :
  upload_single "report_pdf" now random body (files w) = (d', (Some e, file)) ->
  (exists code text,
     handleFileUpload now random body w =
       ({| files := files w;
           sent := sent w ++
             [Responded code {| status := false; status_code := code; message := text |}] |},
        inr tt)) /\
  (forall part,
     fieldname (part_meta part) = "report_pdf" ->
     fileFilter (part_meta part) <> inr true ->
     handleFileUpload now random [part] w =
       ({| files := files w;
           sent := sent w ++
             [Responded 400
                {| status := false; status_code := 400;
                   message := "Invalid file type. Only PDF files are accepted." |}] |},
        inr tt)) /\
  (forall part,
     fieldname (part_meta part) = "report_pdf" ->
     fileFilter (part_meta part) = inr true ->
     limits_fileSize < Z.of_nat (String.length (content part)) ->
     handleFileUpload now random [part] w =
       ({| files := files w;
           sent := sent w ++
             [Responded 400
                {| status := false; status_code := 400; message := "File too large" |}] |},
        inr tt)).
Proof.
  intros Hrej. split; [| split].
  - destruct (upload_single_error_disk _ _ _ _ _ _ _ Hrej) as [-> ->].
    destruct (upload_callback_error_response e None w) as (code & text & Hcb & _).
    exists code, text.
    unfold handleFileUpload. rewrite Hrej.
    destruct w as [d sn]. exact Hcb.
  - intros part Hfield Hfilter. unfold handleFileUpload, upload_single.
    rewrite Hfield. simpl.
    destruct (fileFilter_true_or_error (part_meta part)) as [H | H]; [contradiction |].
    rewrite H. reflexivity.
  - intros part Hfield Hfilter Hbig. unfold handleFileUpload, upload_single.
    rewrite Hfield, Hfilter. simpl.
    apply Z.ltb_lt in Hbig. rewrite Hbig. reflexivity.
Qed.

Lemma NumberToString_head (n : Z) :
  exists c rest,
    NumberToString n = String c rest /\ c <> "c"%char.
Proof.
  unfold NumberToString. destruct (Z.to_int n) as [u | u]; simpl.
  - destruct u; simpl; eexists _, _; (split; [reflexivity | discriminate]).
  - eexists _, _. split; [reflexivity | discriminate].
Qed.

Lemma append_cons (a : ascii) (s t : string) :
  String a s +:+ t = String a (s +:+ t).
Proof. reflexivity. Qed.

Lemma append_nil (t : string) : "" +:+ t = t.
Proof. reflexivity. Qed.

Lemma append_slash_occurs (x y : string) :
  existsb (Ascii.eqb "/") (list_ascii_of_string (x +:+ String "/" y)) = true.
Proof.
  induction x as [| a x IH]; simpl.
  - reflexivity.
  - rewrite IH. apply orb_true_r.
Qed.

(** A stored upload never lands on the ledger file. *)
Lemma stored_path_not_ledger (dir : string) (now : Z) (random : Q) (file : file_meta) :
  path_join dir (storage_filename now random file) <> CUMULATIVE_SIZE_FILE.
Proof.
  unfold path_join, storage_filename.
  destruct (NumberToString_head now) as (c & rest & -> & Hc).
  unfold CUMULATIVE_SIZE_FILE. intros H.
  destruct dir as [| a [| b dir']]; rewrite ?append_cons, ?append_nil in H.
  - discriminate.
  - inversion H. congruence.
  - inversion H as [[Ha Hb H']]. clear H.
    match type of H' with
    | dir' +:+ String "/" ?y = _ => pose proof (append_slash_occurs dir' y) as Hs
    end.
    rewrite H' in Hs. discriminate.
Qed.

Lemma getCumulativeSize_insert_other (p : string) (nd : node) (d : disk) (v : value) :
  p <> CUMULATIVE_SIZE_FILE ->
  getCumulativeSize d = (d, inr v) ->
  getCumulativeSize (<[p := nd]> d) = (<[p := nd]> d, inr v).
Proof.
  intros Hne. rewrite !getCumulativeSize_unfold, lookup_insert_ne by exact Hne.
  intros [= ->]. reflexivity.
Qed.

Lemma upload_callback_accounts (f : req_file) (w : world) (n : Z) :
  getCumulativeSize (files w) = (files w, inr (VNumber n)) ->
  ledger_writable (files w) = true ->
  size f <> 0 ->
  upload_callback None (Some f) w =
    ({| files := <[CUMULATIVE_SIZE_FILE :=
                     ledger_node (files w)
                       (ledger_document (NumberToString (Z.max 0 (n + size f))))]>
                 (files w);
        sent := sent w ++ [Called_updateCumulativeSize (size f); Called_next] |},
     inr tt).
Proof.
  intros Hread Hw Hsz. unfold upload_callback, next, log, on_disk. run.
  apply Z.eqb_neq in Hsz. rewrite Hsz. simpl.
  rewrite (updateCumulativeSize_numeric _ _ _ Hread), writeFile_ledger, Hw.
  simpl. now rewrite <- app_assoc.
Qed.

(** ** The file filter *)

Lemma starts_with_spec (p s : string) :
  starts_with p s = true <-> exists post, s = p +:+ post.
Proof.
  revert s. induction p as [| a p IH]; intros s; simpl.
  - split; [intros _; now exists s | reflexivity].
  - destruct s as [| b s].
    + split; [discriminate | intros [post H]; discriminate].
    + rewrite andb_true_iff, IH. split.
      * intros [Hab [post ->]]. apply Ascii.eqb_eq in Hab as ->. now exists post.
      * intros [post H]. rewrite append_cons in H. injection H as -> ->.
        split; [apply Ascii.eqb_refl | now exists post].
Qed.

Lemma regexp_test_spec (literal s : string) :
  regexp_test literal s = true <-> exists pre post, s = pre +:+ literal +:+ post.
Proof.
  induction s as [| c s IH].
  - simpl. rewrite orb_false_r, starts_with_spec. split.
    + intros [post H]. now exists "", post.
    + intros (pre & post & H). destruct pre; [now exists post | discriminate].
  - simpl. rewrite orb_true_iff, starts_with_spec, IH. split.
    + intros [[post H] | (pre & post & H)].
      * now exists "", post.
      * exists (String c pre), post. now rewrite append_cons, H.
    + intros (pre & post & H). destruct pre as [| a pre].
      * left. now exists post.
      * right. rewrite append_cons in H. injection H as _ H. now exists pre, post.
Qed.

Lemma toLowerCase_app (a b : string) :
  toLowerCase (a +:+ b) = toLowerCase a +:+ toLowerCase b.
Proof.
  induction a as [| c a IH]; [reflexivity |].
  rewrite append_cons. simpl. now rewrite IH, append_cons.
Qed.

Lemma toLowerCase_split (s a b : string) :
  toLowerCase s = a +:+ b ->
  exists s1 s2, s = s1 +:+ s2 /\ toLowerCase s1 = a /\ toLowerCase s2 = b.
Proof.
  revert s. induction a as [| c a IH]; intros s H.
  - now exists "", s.
  - destruct s as [| x s]; [discriminate |].
    rewrite append_cons in H. simpl in H. injection H as Hc H.
    destruct (IH s H) as (s1 & s2 & -> & <- & <-).
    exists (String x s1), s2. repeat split. simpl. now rewrite Hc.
Qed.

(** The extension test: some stretch of the string is [pdf] in any letter
    case. *)
Lemma regexp_test_lower_spec (s : string) :
  regexp_test "pdf" (toLowerCase s) = true <->
  exists pre x post, s = pre +:+ x +:+ post /\ toLowerCase x = "pdf".
Proof.
  rewrite regexp_test_spec. split.
  - intros (pre & post & H).
    apply toLowerCase_split in H as (s1 & s2 & -> & _ & H).
    apply toLowerCase_split in H as (x & s3 & -> & Hx & _).
    now exists s1, x, s3.
  - intros (pre & x & post & -> & Hx).
    exists (toLowerCase pre), (toLowerCase post).
    now rewrite !toLowerCase_app, Hx.
Qed.

(** ** The stored file name *)

Lemma Math_round_unit_interval (random : Q) :
  (0 <= random)%Q -> (random < 1)%Q ->
  0 <= Math_round (random * inject_Z 1000000000) <= 1000000000.
Proof.
  intros H0 H1. unfold Math_round. split.
  - change 0 with (Qfloor 0). apply Qfloor_resp_le.
    apply Qle_trans with (0 * inject_Z 1000000000 + 0)%Q; [discriminate |].
    apply Qplus_le_compat; [| discriminate].
    apply Qmult_le_compat_r; [exact H0 | discriminate].
  - change 1000000000 with (Qfloor (1 * inject_Z 1000000000 + (1 # 2))) at 2.
    apply Qfloor_resp_le. apply Qplus_le_compat; [| apply Qle_refl].
    apply Qmult_le_compat_r; [now apply Qlt_le_weak | discriminate].
Qed.

(** C9: the stored name is the time stamp, a dash, an integer, a dash and
    the original file name, and for every value of [Math.random()] in
    [0, 1) that integer lies between 0 and 1e9, both ends included. *)
Theorem storage_filename_format (now : Z) (random : Q) (file : file_meta) :
  (0 <= random)%Q -> (random < 1)%Q ->
  exists randomInt : Z,
    0 <= randomInt <= 1000000000 /\
    storage_filename now random file =
      (NumberToString now +:+ "-" +:+ NumberToString randomInt) +:+
      "-" +:+ originalname file.
Proof.
  intros H0 H1. exists (Math_round (random * inject_Z 1000000000)).
  split; [now apply Math_round_unit_interval | reflexivity].
Qed.

(** ** More on the ledger *)

Lemma ledger_node_insert (d : disk) (x y : string) :
  ledger_node (<[CUMULATIVE_SIZE_FILE := ledger_node d x]> d) y = ledger_node d y.
Proof.
  unfold ledger_node. rewrite lookup_insert_eq.
  destruct (d !! CUMULATIVE_SIZE_FILE) as [[data r w | sz] |]; reflexivity.
Qed.

Lemma ledger_writable_insert (d : disk) (x : string) :
  ledger_writable d = true ->
  ledger_writable (<[CUMULATIVE_SIZE_FILE := ledger_node d x]> d) = true.
Proof.
  unfold ledger_writable, ledger_node. rewrite lookup_insert_eq.
  destruct (d !! CUMULATIVE_SIZE_FILE) as [[data r w | sz] |]; auto.
Qed.


Lemma updateCumulativeSize_writable (delta n : Z) (d : disk) :
  getCumulativeSize d = (d, inr (VNumber n)) ->
  ledger_writable d = true ->
  updateCumulativeSize delta d =
    (<[CUMULATIVE_SIZE_FILE :=
         ledger_node d (JSON_stringify_totalSize (Num (Z.max 0 (n + delta))))]> d,
     inr (Num (Z.max 0 (n + delta)))).
Proof.
  intros Hread Hw.
  now rewrite (updateCumulativeSize_numeric _ _ _ Hread), writeFile_ledger, Hw.
Qed.

(** X1: whatever its outcome, [updateCumulativeSize] leaves every path
    other than the ledger file's as it was. *)
Theorem updateCumulativeSize_touches_only_ledger
    (delta : Z) (d d' : disk) (r : exn + number) (p : string) :
  updateCumulativeSize delta d = (d', r) ->
  p <> CUMULATIVE_SIZE_FILE ->
  d' !! p = d !! p.
Proof.
  unfold updateCumulativeSize. run. rewrite getCumulativeSize_unfold.
  destruct (js_add _ delta) as [e | sum]; [now intros [= <- _] |].
  rewrite writeFile_ledger.
  destruct (ledger_writable d); intros [= <- _] Hne; [| reflexivity].
  now rewrite lookup_insert_ne by congruence.
Qed.

(** X2: on a ledger that reads as a number, [updateCumulativeSize] is
    fulfilled exactly when the ledger file can be created or overwritten;
    otherwise it is rejected with the error of the write ([EISDIR] for a
    directory, [EACCES] for a read-only file) and the disk is unchanged. *)
Theorem updateCumulativeSize_fulfilled_iff_writable (delta n : Z) (d : disk) :
  getCumulativeSize d = (d, inr (VNumber n)) ->
  ((exists d' total, updateCumulativeSize delta d = (d', inr total)) <->
   ledger_writable d = true) /\
  (ledger_writable d = false ->
   updateCumulativeSize delta d =
     (d, inl (FsError match d !! CUMULATIVE_SIZE_FILE with
                      | Some (Directory _) => EISDIR
                      | _ => EACCES
                      end))).
Proof.
  intros Hread.
  rewrite (updateCumulativeSize_numeric _ _ _ Hread), writeFile_ledger.
  destruct (ledger_writable d); split.
  - split; [reflexivity | intros _; eauto].
  - discriminate.
  - split; [intros (d' & total & [=]) | discriminate].
  - reflexivity.
Qed.

(** X3: when the ledger file can be written but its content cannot be read
    or is not JSON, [updateCumulativeSize delta] discards what the file
    held: it returns [max 0 delta] and leaves that total in the file. *)
Theorem updateCumulativeSize_discards_unreadable_ledger
    (delta : Z) (d : disk) (data : string) (r : bool) :
  d !! CUMULATIVE_SIZE_FILE = Some (File data r true) ->
  r = false \/ JSON_parse data = None ->
  updateCumulativeSize delta d =
    (<[CUMULATIVE_SIZE_FILE :=
         File (ledger_document (NumberToString (Z.max 0 delta))) r true]> d,
     inr (Num (Z.max 0 delta))).
Proof.
  intros Hd Hbad.
  assert (Hread : getCumulativeSize d = (d, inr (VNumber 0))).
  { rewrite getCumulativeSize_unfold, Hd.
    destruct Hbad as [-> | Hp]; [reflexivity |].
    destruct r; [now rewrite Hp | reflexivity]. }
  rewrite (updateCumulativeSize_writable _ _ _ Hread).
  - unfold ledger_node. now rewrite Hd.
  - unfold ledger_writable. now rewrite Hd.
Qed.

(** X7: a readable ledger whose JSON content is not an object, or is an
    object without a [totalSize], or with a [totalSize] that is [null],
    [false], 0 or the empty string, reads as 0. *)
Theorem getCumulativeSize_zero_without_truthy_total
    (d : disk) (data : string) (w : bool) (parsed : value) :
  d !! CUMULATIVE_SIZE_FILE = Some (File data true w) ->
  JSON_parse data = Some parsed ->
  (forall props, parsed <> VObject props) \/
  (exists props,
     parsed = VObject props /\
     (own_property "totalSize" props = None \/
      exists v,
        own_property "totalSize" props = Some v /\
        (v = VNull \/ v = VBool false \/ v = VNumber 0 \/ v = VString ""))) ->
  getCumulativeSize d = (d, inr (VNumber 0)).
Proof.
  intros Hd Hp Hcase. rewrite getCumulativeSize_unfold, Hd, Hp.
  destruct Hcase as [Hno | (props & -> & [Hnone | (v & Hv & Hfalsy)])].
  - destruct parsed; try reflexivity. now destruct (Hno props).
  - simpl. now rewrite Hnone.
  - simpl. rewrite Hv.
    destruct Hfalsy as [-> | [-> | [-> | ->]]]; reflexivity.
Qed.

(** X8: when the ledger holds a [totalSize] that is a non-empty text, the
    delta is appended to the text instead of added: the call returns, and
    leaves in the file, [Math.max(0, _)] of the number the concatenation
    converts to, which is [NaN], written as [null], when it is no number. *)
Theorem updateCumulativeSize_appends_to_text_total
    (delta : Z) (d : disk) (data s : string) (props : list (string * value)) :
  d !! CUMULATIVE_SIZE_FILE = Some (File data true true) ->
  JSON_parse data = Some (VObject props) ->
  own_property "totalSize" props = Some (VString s) ->
  s <> "" ->
  let newSize := Math_max0 (StringToNumber (s +:+ NumberToString delta)) in
  updateCumulativeSize delta d =
    (<[CUMULATIVE_SIZE_FILE := File (JSON_stringify_totalSize newSize) true true]> d,
     inr newSize) /\
  (newSize = NaN -> JSON_stringify_totalSize newSize = ledger_document "null").
Proof.
  intros Hd Hp Hv Hs newSize. split.
  - unfold updateCumulativeSize. run.
    rewrite getCumulativeSize_unfold, Hd, Hp. simpl. rewrite Hv. simpl.
    destruct s as [| c s]; [contradiction |]. simpl.
    fold newSize. unfold writeFile. now rewrite Hd.
  - now intros ->.
Qed.

(** ** More on deletion *)

Lemma updateCumulativeSize_other_paths (delta : Z) (d : disk) (p : string) :
  p <> CUMULATIVE_SIZE_FILE ->
  (updateCumulativeSize delta d).1 !! p = d !! p.
Proof.
  intros Hne. unfold updateCumulativeSize. run. rewrite getCumulativeSize_unfold.
  destruct (js_add _ delta) as [e | sum]; [reflexivity |].
  rewrite writeFile_ledger.
  destruct (ledger_writable d); simpl; [| reflexivity].
  now rewrite lookup_insert_ne by congruence.
Qed.

Lemma deleteReportFile_disk (filePath : string) (d : disk) :
  (deleteReportFile filePath d).1 =
  match d !! filePath with
  | Some (File data _ _) =>
      (updateCumulativeSize (- Z.of_nat (String.length data)) (delete filePath d)).1
  | _ => d
  end.
Proof.
  rewrite deleteReportFile_unfold.
  destruct (d !! filePath) as [[data r w | sz] |]; try reflexivity.
  now destruct (updateCumulativeSize _ _) as [d' [e | total]].
Qed.

Lemma deleteReportFile_path_gone (filePath : string) (d : disk) :
  filePath <> CUMULATIVE_SIZE_FILE ->
  forall data r w, (deleteReportFile filePath d).1 !! filePath <> Some (File data r w).
Proof.
  intros Hne data r w. rewrite deleteReportFile_disk.
  destruct (d !! filePath) as [[data' r' w' | sz] |] eqn:E;
    try (rewrite E; congruence).
  rewrite updateCumulativeSize_other_paths by exact Hne.
  now rewrite lookup_delete_eq.
Qed.

(** X10: after any call of [deleteReportFile] on a path other than the
    ledger file's, whatever it returned, a second call on the same path
    returns [false] and changes nothing: no file is counted out twice. *)
Theorem deleteReportFile_again_changes_nothing
    (filePath : string) (d d1 : disk) (b : bool) :
  filePath <> CUMULATIVE_SIZE_FILE ->
  deleteReportFile filePath d = (d1, inr b) ->
  deleteReportFile filePath d1 = (d1, inr false).
Proof.
  intros Hne Hfirst.
  pose proof (deleteReportFile_path_gone filePath d Hne) as Hgone.
  rewrite Hfirst in Hgone. simpl in Hgone.
  rewrite deleteReportFile_unfold.
  destruct (d1 !! filePath) as [[data r w | sz] |]; try reflexivity.
  now destruct (Hgone data r w).
Qed.

(** X11: whatever its outcome, [deleteReportFile] leaves every path other
    than the one it is given and the ledger file's as it was. *)
Theorem deleteReportFile_touches_two_paths (filePath p : string) (d : disk) :
  p <> filePath ->
  p <> CUMULATIVE_SIZE_FILE ->
  (deleteReportFile filePath d).1 !! p = d !! p.
Proof.
  intros Hp Hl. rewrite deleteReportFile_disk.
  destruct (d !! filePath) as [[data r w | sz] |]; try reflexivity.
  rewrite updateCumulativeSize_other_paths by exact Hl.
  now rewrite lookup_delete_ne by congruence.
Qed.

(** ** More on the upload handler *)

Lemma upload_callback_error_response_shape
    (e : upload_error) (file : option req_file) (w : world) :
  exists code text,
    upload_callback (Some e) file w =
      ({| files := files w;
          sent := sent w ++
            [Responded code {| status := false; status_code := code; message := text |}] |},
       inr tt).
Proof.
  destruct e as [c m | m]; simpl.
  - destruct (String.eqb c _); eexists _, _; reflexivity.
  - destruct (String.eqb m _); eexists _, _; reflexivity.
Qed.

Lemma upload_callback_with_file (f : req_file) (w : world) :
  size f <> 0 ->
  upload_callback None (Some f) w =
  match updateCumulativeSize (size f) (files w) with
  | (d, inr _) =>
      ({| files := d;
          sent := sent w ++ [Called_updateCumulativeSize (size f); Called_next] |},
       inr tt)
  | (d, inl e) =>
      ({| files := d; sent := sent w ++ [Called_updateCumulativeSize (size f)] |},
       inl e)
  end.
Proof.
  intros Hsz. unfold upload_callback, next, log, on_disk. run.
  apply Z.eqb_neq in Hsz. rewrite Hsz. simpl.
  destruct (updateCumulativeSize _ _) as [d [e | total]]; simpl; [reflexivity |].
  now rewrite <- app_assoc.
Qed.

Lemma upload_callback_without_file (file : option req_file) (w : world) :
  file = None \/ (exists f, file = Some f /\ size f = 0) ->
  upload_callback None file w =
    ({| files := files w; sent := sent w ++ [Called_next] |}, inr tt).
Proof.
  intros [-> | (f & -> & Hsz)]; unfold upload_callback, next, log; run;
    [reflexivity |].
  now rewrite Hsz.
Qed.

(** X13: in every run of the callback the handler hands to the parser,
    with an error it sends one response and touches no file; with no error
    and no file, or an empty one, it only calls [next()] and touches no
    file; with no error and a file of non-zero size it calls
    [updateCumulativeSize] with that size once and then calls [next()] if,
    and only if, that call is fulfilled.  So it never both responds and
    calls [next()], and never calls either twice. *)
Theorem upload_callback_trace
    (err : option upload_error) (file : option req_file) (w : world) :
  (forall e, err = Some e ->
     exists code body,
       upload_callback err file w =
         ({| files := files w; sent := sent w ++ [Responded code body] |}, inr tt)) /\
  (err = None ->
   file = None \/ (exists f, file = Some f /\ size f = 0) ->
   upload_callback err file w =
     ({| files := files w; sent := sent w ++ [Called_next] |}, inr tt)) /\
  (forall f, err = None -> file = Some f -> size f <> 0 ->
     exists d outcome,
       updateCumulativeSize (size f) (files w) = (d, outcome) /\
       upload_callback err file w =
         ({| files := d;
             sent := sent w ++
                     Called_updateCumulativeSize (size f) ::
                     match outcome with inr _ => [Called_next] | inl _ => [] end |},
          match outcome with inr _ => inr tt | inl e => inl e end)).
Proof.
  split; [| split].
  - intros e ->.
    destruct (upload_callback_error_response_shape e file w) as (code & text & H).
    eauto.
  - intros -> Hfile. now apply upload_callback_without_file.
  - intros f -> -> Hsz. rewrite (upload_callback_with_file f w Hsz).
    destruct (updateCumulativeSize _ _) as [d [e | total]]; eauto.
Qed.

(** X14: when the upload succeeded with a file of non-zero size and the
    ledger file cannot be written, the callback is rejected after the call
    of [updateCumulativeSize]: no response is sent, [next()] is not called
    and no file is changed. *)
Theorem upload_callback_unwritable_ledger (f : req_file) (w : world) :
  size f <> 0 ->
  ledger_writable (files w) = false ->
  exists e,
    upload_callback None (Some f) w =
      ({| files := files w;
          sent := sent w ++ [Called_updateCumulativeSize (size f)] |},
       inl e).
Proof.
  intros Hsz Hw. rewrite (upload_callback_with_file f w Hsz).
  destruct (updateCumulativeSize_unwritable (size f) _ Hw) as [e ->].
  now exists e.
Qed.

(** X15: the current handler behaves exactly as the earlier one kept in
    the same file on every request that the parser rejects, that carries no
    file, or whose file is empty; and the earlier handler never changes a
    file of its own. *)
Theorem handleFileUpload_agrees_with_original
    (now : Z) (random : Q) (body : list upload_part) (w : world)
    (d : disk) (err : option upload_error) (file : option req_file) :
  upload_single "report_pdf" now random body (files w) = (d, (err, file)) ->
  (err <> None \/ file = None \/ (exists f, file = Some f /\ size f = 0) ->
   handleFileUpload now random body w = handleFileUpload_original now random body w) /\
  (exists evs,
     handleFileUpload_original now random body w =
       ({| files := d; sent := sent w ++ evs |}, inr tt)).
Proof.
  intros Hparse. unfold handleFileUpload, handleFileUpload_original. rewrite Hparse.
  split.
  - intros [Herr | Hfile].
    + destruct err as [[c m | m] |]; [reflexivity | reflexivity | contradiction].
    + destruct err as [[c m | m] |]; [reflexivity | reflexivity |].
      now rewrite upload_callback_without_file.
  - destruct err as [[c m | m] |]; simpl.
    + destruct (String.eqb c _); eexists; reflexivity.
    + destruct (String.eqb m _); eexists; reflexivity.
    + eexists. reflexivity.
Qed.

Lemma ledger_node_ext (d d' : disk) (x : string) :
  d !! CUMULATIVE_SIZE_FILE = d' !! CUMULATIVE_SIZE_FILE ->
  ledger_node d x = ledger_node d' x.
Proof. unfold ledger_node. now intros ->. Qed.

Lemma ledger_writable_ext (d d' : disk) :
  d !! CUMULATIVE_SIZE_FILE = d' !! CUMULATIVE_SIZE_FILE ->
  ledger_writable d = ledger_writable d'.
Proof. unfold ledger_writable. now intros ->. Qed.

Lemma ledger_readable_ext (d d' : disk) :
  d !! CUMULATIVE_SIZE_FILE = d' !! CUMULATIVE_SIZE_FILE ->
  ledger_readable d = ledger_readable d'.
Proof. unfold ledger_readable. now intros ->. Qed.

Lemma deleteReportFile_counts_out
    (filePath : string) (d : disk) (data : string) (r w : bool) (n : Z) :
  d !! filePath = Some (File data r w) ->
  filePath <> CUMULATIVE_SIZE_FILE ->
  getCumulativeSize d = (d, inr (VNumber n)) ->
  ledger_writable d = true ->
  deleteReportFile filePath d =
    (<[CUMULATIVE_SIZE_FILE :=
         ledger_node d (JSON_stringify_totalSize
                          (Num (Z.max 0 (n + - Z.of_nat (String.length data)))))]>
       (delete filePath d),
     inr true).
Proof.
  intros Hfile Hne Hread Hw. rewrite deleteReportFile_unfold, Hfile.
  pose proof (getCumulativeSize_other_path _ _ _ Hne Hread) as Hread1.
  assert (HL : delete filePath d !! CUMULATIVE_SIZE_FILE = d !! CUMULATIVE_SIZE_FILE)
    by now rewrite lookup_delete_ne.
  rewrite (updateCumulativeSize_writable _ _ _ Hread1)
    by now rewrite (ledger_writable_ext _ d).
  now rewrite (ledger_node_ext _ d).
Qed.

Lemma handleFileUpload_accepted
    (now : Z) (random : Q) (part : upload_part) (w : world) :
  fieldname (part_meta part) = "report_pdf" ->
  fileFilter (part_meta part) = inr true ->
  Z.of_nat (String.length (content part)) <= limits_fileSize ->
  let stored :=
    path_join reportUploadDirectory (storage_filename now random (part_meta part)) in
  handleFileUpload now random [part] w =
    upload_callback None
      (Some {| meta := part_meta part; destination := reportUploadDirectory;
               filename := storage_filename now random (part_meta part);
               path := stored; size := Z.of_nat (String.length (content part)) |})
      {| files := <[stored := File (content part) true true]> (files w);
         sent := sent w |}.
Proof.
  intros Hfield Hfilter Hsmall stored.
  unfold handleFileUpload, upload_single.
  rewrite Hfield, Hfilter. simpl.
  apply Z.ltb_ge in Hsmall. now rewrite Hsmall.
Qed.

(** ** More on the file filter *)

Lemma append_assoc (a b c : string) : (a +:+ b) +:+ c = a +:+ b +:+ c.
Proof.
  induction a as [| x a IH]; [reflexivity |].
  now rewrite !append_cons, IH.
Qed.

Lemma append_nil_r (a : string) : a +:+ "" = a.
Proof.
  induction a as [| x a IH]; [reflexivity |].
  now rewrite append_cons, IH.
Qed.

Lemma substring_0_prefix (s : string) (m : nat) :
  exists post, s = substring 0 m s +:+ post.
Proof.
  revert m. induction s as [| c s IH]; intros m.
  - exists "". now destruct m.
  - destruct m as [| m]; simpl.
    + now exists (String c s).
    + destruct (IH m) as [post H]. exists post. rewrite append_cons. now f_equal.
Qed.

Lemma substring_infix (s : string) (n m : nat) :
  exists pre post, s = pre +:+ substring n m s +:+ post.
Proof.
  revert n. induction s as [| c s IH]; intros n.
  - exists "", "". now destruct n, m.
  - destruct n as [| n].
    + destruct (substring_0_prefix (String c s) m) as [post H]. now exists "", post.
    + simpl. destruct (IH n) as (pre & post & H).
      exists (String c pre), post. rewrite append_cons. now f_equal.
Qed.

Lemma extname_infix (p : string) :
  exists pre post, p = pre +:+ extname p +:+ post.
Proof.
  unfold extname. destruct (_ || _).
  - now exists "", p.
  - apply substring_infix.
Qed.

(** X17: a file the filter accepts has [pdf], in some letter case,
    somewhere in its original name: a name without it is always refused,
    whatever the MIME type says. *)
Theorem fileFilter_accepted_name_mentions_pdf (file : file_meta) :
  fileFilter file = inr true ->
  exists pre x post,
    originalname file = pre +:+ x +:+ post /\ toLowerCase x = "pdf".
Proof.
  unfold fileFilter, filetypes.
  destruct (regexp_test "pdf" (mimetype file)); [| discriminate].
  destruct (regexp_test "pdf" (toLowerCase (extname (originalname file)))) eqn:E;
    [| discriminate].
  intros _. apply regexp_test_lower_spec in E as (pre & x & post & Hext & Hx).
  destruct (extname_infix (originalname file)) as (pre0 & post0 & Hname).
  exists (pre0 +:+ pre), x, (post +:+ post0). split; [| exact Hx].
  rewrite Hname at 1. rewrite Hext. now rewrite !append_assoc.
Qed.

(** ** The exported helpers *)

Lemma list_ascii_of_string_app (a b : string) :
  list_ascii_of_string (a +:+ b) = (list_ascii_of_string a ++ list_ascii_of_string b)%list.
Proof.
  induction a as [| c a IH]; [reflexivity |].
  rewrite append_cons. simpl. now rewrite IH.
Qed.

Lemma all_chars_app (P : ascii -> bool) (a b : string) :
  all_chars P (a +:+ b) = all_chars P a && all_chars P b.
Proof. unfold all_chars. now rewrite list_ascii_of_string_app, forallb_app. Qed.

Lemma string_of_uint_no_whitespace (u : Decimal.uint) :
  all_chars (fun c => negb (is_whitespace c)) (NilEmpty.string_of_uint u) = true.
Proof. induction u; simpl; auto. Qed.

Lemma NumberToString_no_whitespace (n : Z) :
  all_chars (fun c => negb (is_whitespace c)) (NumberToString n) = true.
Proof.
  unfold NumberToString.
  destruct (Z.to_int n) as [u | u]; simpl.
  - destruct u; try reflexivity; apply (string_of_uint_no_whitespace (_ u)).
  - change (all_chars (fun c => negb (is_whitespace c))
              (NilZero.string_of_uint u) = true).
    destruct u; try reflexivity; apply (string_of_uint_no_whitespace (_ u)).
Qed.

Lemma replace_whitespace_runs_clean (in_run : bool) (s : string) :
  all_chars (fun c => negb (is_whitespace c)) (replace_whitespace_runs in_run s) = true.
Proof.
  revert in_run. induction s as [| c s IH]; intros in_run; [reflexivity |].
  simpl. destruct (is_whitespace c) eqn:E.
  - destruct in_run; [apply IH |].
    unfold all_chars. simpl. apply IH.
  - unfold all_chars. simpl. rewrite E. apply IH.
Qed.

Lemma replace_whitespace_runs_id (in_run : bool) (s : string) :
  all_chars (fun c => negb (is_whitespace c)) s = true ->
  replace_whitespace_runs in_run s = s.
Proof.
  revert in_run. induction s as [| c s IH]; intros in_run H; [reflexivity |].
  unfold all_chars in H. simpl in H. apply andb_true_iff in H as [Hc Hs].
  simpl. apply negb_true_iff in Hc. rewrite Hc. f_equal. now apply IH.
Qed.

Lemma replace_whitespace_runs_app (in_run : bool) (x z : string) :
  replace_whitespace_runs in_run (x +:+ z) =
  replace_whitespace_runs in_run x +:+
  replace_whitespace_runs (in_run_after in_run x) z.
Proof.
  revert in_run. induction x as [| c x IH]; intros in_run; [reflexivity |].
  rewrite append_cons. simpl.
  destruct (is_whitespace c); [destruct in_run |]; rewrite IH; reflexivity.
Qed.

Lemma replace_whitespace_run (in_run : bool) (ws : string) :
  ws <> "" ->
  all_chars is_whitespace ws = true ->
  replace_whitespace_runs in_run ws = (if in_run then "" else "_") /\
  in_run_after in_run ws = true.
Proof.
  revert in_run. induction ws as [| c ws IH]; intros in_run Hne Hall; [contradiction |].
  unfold all_chars in Hall. simpl in Hall. apply andb_true_iff in Hall as [Hc Hws].
  simpl. rewrite Hc. destruct ws as [| c' ws].
  - now destruct in_run.
  - destruct (IH true) as [H1 H2]; [discriminate | exact Hws |].
    rewrite H1, H2. now destruct in_run.
Qed.

(** X18: the name [generateUniqueFileName] returns contains no white-space
    character (tab, line feed, vertical tab, form feed, carriage return,
    space), whatever the original name. *)
Theorem generateUniqueFileName_no_whitespace (now : Z) (originalName : string) :
  all_chars (fun c => negb (is_whitespace c))
    (generateUniqueFileName now originalName) = true.
Proof.
  unfold generateUniqueFileName.
  rewrite !all_chars_app, NumberToString_no_whitespace.
  now rewrite replace_whitespace_runs_clean.
Qed.

(** X19: an ASCII name without white space is kept as it is behind the
    time stamp and a dash; and a name that has been through
    [generateUniqueFileName]'s replacement once is not changed by it
    again. *)
Theorem generateUniqueFileName_keeps_clean_names (now : Z) (originalName : string) :
  (all_chars (fun c => (nat_of_ascii c <? 128)%nat && negb (is_whitespace c))
     originalName = true ->
   generateUniqueFileName now originalName =
     NumberToString now +:+ "-" +:+ originalName) /\
  generateUniqueFileName now (replace_whitespace_runs false originalName) =
    generateUniqueFileName now originalName.
Proof.
  unfold generateUniqueFileName. split.
  - intros H. rewrite replace_whitespace_runs_id; [reflexivity |].
    unfold all_chars in *. rewrite forallb_forall in *.
    intros c Hc. specialize (H c Hc). now apply andb_true_iff in H as [_ H].
  - rewrite (replace_whitespace_runs_id false (replace_whitespace_runs false originalName));
      [reflexivity | apply replace_whitespace_runs_clean].
Qed.

(** X20: two original names that differ only in what white space, and how
    much of it, stands at one place get the same name at the same
    millisecond. *)
Theorem generateUniqueFileName_collides_on_whitespace
    (now : Z) (x ws1 ws2 y : string) :
  ws1 <> "" -> all_chars is_whitespace ws1 = true ->
  ws2 <> "" -> all_chars is_whitespace ws2 = true ->
  generateUniqueFileName now (x +:+ ws1 +:+ y) =
  generateUniqueFileName now (x +:+ ws2 +:+ y).
Proof.
  intros Hn1 Ha1 Hn2 Ha2. unfold generateUniqueFileName. do 2 f_equal.
  rewrite !replace_whitespace_runs_app.
  destruct (replace_whitespace_run (in_run_after false x) ws1 Hn1 Ha1) as [-> ->].
  destruct (replace_whitespace_run (in_run_after false x) ws2 Hn2 Ha2) as [-> ->].
  reflexivity.
Qed.

Lemma hex_of_byte_ff (b : byte) :
  hex_digit (Byte.to_N b / 16) = "f"%char ->
  hex_digit (Byte.to_N b mod 16) = "f"%char ->
  b = xff.
Proof. destruct b; vm_compute; intros H1 H2; (reflexivity || discriminate). Qed.

Lemma hex_of_byte_d8 (b : byte) :
  hex_digit (Byte.to_N b / 16) = "d"%char ->
  hex_digit (Byte.to_N b mod 16) = "8"%char ->
  b = xd8.
Proof. destruct b; vm_compute; intros H1 H2; (reflexivity || discriminate). Qed.

(** X21: [isValidJpeg] answers [true] exactly for the buffers that start
    with the two bytes [FF D8]; a buffer of fewer than two bytes is never
    valid. *)
Theorem isValidJpeg_iff_SOI (fileBytes : list byte) :
  (isValidJpeg fileBytes = true <-> exists rest, fileBytes = xff :: xd8 :: rest) /\
  ((length fileBytes < 2)%nat -> isValidJpeg fileBytes = false).
Proof.
  unfold isValidJpeg, Buffer_toString_hex.
  destruct fileBytes as [| b1 [| b2 rest]].
  - split; [| reflexivity]. split; [discriminate | intros [rest [=]]].
  - change (String.concat "" (map hex_of_byte (take (2 - 0) (drop 0 [b1]))))
      with (String (hex_digit (Byte.to_N b1 / 16))
             (String (hex_digit (Byte.to_N b1 mod 16)) "")).
    assert (Hshort : (String (hex_digit (Byte.to_N b1 / 16))
                        (String (hex_digit (Byte.to_N b1 mod 16)) "") =? "ffd8")%string
                     = false) by (apply String.eqb_neq; discriminate).
    rewrite Hshort. split; [| reflexivity].
    split; [discriminate | intros [rest [=]]].
  - split; [| simpl; lia].
    change (String.concat "" (map hex_of_byte (take (2 - 0) (drop 0 (b1 :: b2 :: rest)))))
      with (String (hex_digit (Byte.to_N b1 / 16))
             (String (hex_digit (Byte.to_N b1 mod 16))
                (String (hex_digit (Byte.to_N b2 / 16))
                   (String (hex_digit (Byte.to_N b2 mod 16)) "")))).
    rewrite String.eqb_eq. split.
    + intros [= H1 H2 H3 H4].
      rewrite (hex_of_byte_ff b1 H1 H2), (hex_of_byte_d8 b2 H3 H4). now exists rest.
    + intros [rest' [= -> -> _]]. reflexivity.
Qed.

(** ** Totals within the safe integers *)

Lemma Number_isSafeInteger_spec (z : Z) :
  Number_isSafeInteger z = true <->
  - Number_MAX_SAFE_INTEGER <= z <= Number_MAX_SAFE_INTEGER.
Proof.
  clear. unfold Number_isSafeInteger. rewrite andb_true_iff, !Z.leb_le. tauto.
Qed.

Lemma Number_isSafeInteger_max0 (z : Z) :
  Number_isSafeInteger z = true -> Number_isSafeInteger (Z.max 0 z) = true.
Proof.
  clear. rewrite !Number_isSafeInteger_spec. unfold Number_MAX_SAFE_INTEGER. lia.
Qed.

Lemma getCumulativeSize_written_safe (d : disk) (n : Z) (r w : bool) :
  Number_isSafeInteger n = true ->
  d !! CUMULATIVE_SIZE_FILE = Some (File (JSON_stringify_totalSize (Num n)) r w) ->
  r = true ->
  getCumulativeSize d = (d, inr (VNumber n)).
Proof.
  intros Hs Hd ->.
  rewrite getCumulativeSize_unfold, Hd, (JSON_parse_stringify_safe n Hs).
  simpl. destruct (Z.eqb_spec n 0) as [-> |]; reflexivity.
Qed.

Lemma ledger_holds_spec (d : disk) (n : Z) :
  ledger_holds d n = true <->
  (d !! CUMULATIVE_SIZE_FILE = None /\ n = 0) \/
  (exists w, d !! CUMULATIVE_SIZE_FILE =
             Some (File (ledger_document (NumberToString n)) true w)).
Proof.
  unfold ledger_holds.
  destruct (d !! CUMULATIVE_SIZE_FILE) as [[data r w | sz] |].
  - rewrite andb_true_iff, String.eqb_eq. split.
    + intros [-> ->]. right. now exists w.
    + intros [[H _] | [w' H]]; [discriminate |]. now injection H as -> -> _.
  - split; [discriminate | intros [[H _] | [w' H]]; discriminate].
  - rewrite Z.eqb_eq. split; [auto |].
    intros [[_ H] | [w' H]]; [exact H | discriminate].
Qed.

Lemma getCumulativeSize_holds (d : disk) (n : Z) :
  Number_isSafeInteger n = true ->
  ledger_holds d n = true ->
  getCumulativeSize d = (d, inr (VNumber n)).
Proof.
  intros Hs H. apply ledger_holds_spec in H as [[Hd ->] | [w Hd]].
  - rewrite getCumulativeSize_unfold. now rewrite Hd.
  - now apply (getCumulativeSize_written_safe d n true w).
Qed.

Lemma ledger_holds_readable (d : disk) (n : Z) :
  ledger_holds d n = true -> ledger_readable d = true.
Proof.
  intros H. apply ledger_holds_spec in H as [[Hd _] | [w Hd]];
    unfold ledger_readable; now rewrite Hd.
Qed.

Lemma ledger_holds_ext (d d' : disk) (n : Z) :
  d !! CUMULATIVE_SIZE_FILE = d' !! CUMULATIVE_SIZE_FILE ->
  ledger_holds d n = ledger_holds d' n.
Proof. unfold ledger_holds. now intros ->. Qed.

Lemma ledger_holds_insert (d : disk) (m : Z) :
  ledger_readable d = true ->
  ledger_holds
    (<[CUMULATIVE_SIZE_FILE := ledger_node d (ledger_document (NumberToString m))]> d)
    m = true.
Proof.
  unfold ledger_holds, ledger_readable, ledger_node. rewrite lookup_insert_eq.
  destruct (d !! CUMULATIVE_SIZE_FILE) as [[data r w | sz] |]; intros H;
    try discriminate; rewrite String.eqb_refl; simpl; auto.
Qed.

Lemma ledger_readable_insert (d : disk) (x : string) :
  ledger_readable d = true ->
  ledger_readable (<[CUMULATIVE_SIZE_FILE := ledger_node d x]> d) = true.
Proof.
  unfold ledger_readable, ledger_node. rewrite lookup_insert_eq.
  destruct (d !! CUMULATIVE_SIZE_FILE) as [[data r w | sz] |]; auto.
Qed.

Lemma getCumulativeSize_insert_ledger_safe (d : disk) (t : Z) :
  Number_isSafeInteger t = true ->
  ledger_readable d = true ->
  let d' := <[CUMULATIVE_SIZE_FILE :=
                ledger_node d (JSON_stringify_totalSize (Num t))]> d in
  getCumulativeSize d' = (d', inr (VNumber t)).
Proof.
  intros Hs Hr d'. apply getCumulativeSize_holds; [exact Hs |].
  now apply ledger_holds_insert.
Qed.

Lemma own_property_absent (key : string) (props : list (string * value)) :
  (forall v, ~ In (key, v) props) -> own_property key props = None.
Proof.
  induction props as [| [k x] rest IH]; intros H; [reflexivity |].
  simpl. rewrite IH by (intros v Hv; apply (H v); now right).
  destruct (String.eqb_spec k key) as [-> |]; [| reflexivity].
  destruct (H x). now left.
Qed.

Lemma own_property_last (key : string) (pre post : list (string * value)) (v : value) :
  (forall v', ~ In (key, v') post) ->
  own_property key (pre ++ (key, v) :: post)%list = Some v.
Proof.
  intros H. induction pre as [| [k x] pre IH]; simpl.
  - now rewrite (own_property_absent key post H), String.eqb_refl.
  - now rewrite IH.
Qed.

(** C6: [getCumulativeSize] never raises and leaves the disk alone; it
    returns 0 when the ledger file is missing, when it cannot be read and
    when its content is not JSON, so an absent and a corrupted ledger are
    told apart by nothing; when the content is a JSON object it returns the
    [totalSize] the object ends up with (the last entry under that key),
    provided that is a number or another truthy value; and a readable file
    that holds [{"totalSize":n}] for a safe integer [n] reads as [n]. *)
Theorem getCumulativeSize_reads_or_zero (d : disk) :
  (exists v, getCumulativeSize d = (d, inr v)) /\
  (d !! CUMULATIVE_SIZE_FILE = None ->
   getCumulativeSize d = (d, inr (VNumber 0))) /\
  (forall data w, d !! CUMULATIVE_SIZE_FILE = Some (File data false w) ->
   getCumulativeSize d = (d, inr (VNumber 0))) /\
  (forall sz, d !! CUMULATIVE_SIZE_FILE = Some (Directory sz) ->
   getCumulativeSize d = (d, inr (VNumber 0))) /\
  (forall data w, d !! CUMULATIVE_SIZE_FILE = Some (File data true w) ->
   JSON_parse data = None ->
   getCumulativeSize d = (d, inr (VNumber 0))) /\
  (forall data w pre post v,
   d !! CUMULATIVE_SIZE_FILE = Some (File data true w) ->
   JSON_parse data = Some (VObject (pre ++ ("totalSize", v) :: post)%list) ->
   (forall v', ~ In ("totalSize", v') post) ->
   (exists n, v = VNumber n) \/ truthy v = true ->
   getCumulativeSize d = (d, inr v)) /\
  (forall n w,
   Number_isSafeInteger n = true ->
   d !! CUMULATIVE_SIZE_FILE =
     Some (File (ledger_document (NumberToString n)) true w) ->
   getCumulativeSize d = (d, inr (VNumber n))).
Proof.
  split; [apply getCumulativeSize_total |].
  split; [| split; [| split; [| split; [| split]]]].
  - intros H. rewrite getCumulativeSize_unfold. now rewrite H.
  - intros data w H. rewrite getCumulativeSize_unfold. now rewrite H.
  - intros sz H. rewrite getCumulativeSize_unfold. now rewrite H.
  - intros data w H H0. rewrite getCumulativeSize_unfold. now rewrite H, H0.
  - intros data w pre post v H H0 Hlast Hv.
    rewrite getCumulativeSize_unfold, H, H0. simpl.
    rewrite (own_property_last "totalSize" pre post v Hlast). simpl.
    destruct Hv as [[n ->] | ->]; [| reflexivity].
    simpl. destruct (Z.eqb_spec n 0) as [-> |]; reflexivity.
  - intros n w Hs H. now apply (getCumulativeSize_written_safe d n true w).
Qed.

(** C1: for safe integers [n], [delta] and [n + delta]: a ledger file that
    holds [{"totalSize":n}] (or is absent, for [n = 0]) reads as [n]; when
    the ledger reads as [n] and its file can be created or overwritten,
    [updateCumulativeSize delta] returns [max 0 (n + delta)] and leaves
    exactly the text [{"totalSize":<that total>}] as the whole content of
    the ledger file, every other file untouched, so that the file then
    holds that total; when the file cannot be written the call is rejected
    with the error of the write and the disk is left as it was.  From an absent ledger the read is 0, adding 500
    leaves [{"totalSize":500}] and then adding -800 leaves
    [{"totalSize":0}]. *)
Theorem updateCumulativeSize_clamps_and_overwrites (delta n : Z) (d : disk) :
  Number_isSafeInteger n = true ->
  Number_isSafeInteger delta = true ->
  Number_isSafeInteger (n + delta) = true ->
  let newTotal := Z.max 0 (n + delta) in
  (ledger_holds d n = true -> getCumulativeSize d = (d, inr (VNumber n))) /\
  (getCumulativeSize d = (d, inr (VNumber n)) ->
   ledger_writable d = true ->
   updateCumulativeSize delta d =
     (<[CUMULATIVE_SIZE_FILE :=
          ledger_node d (ledger_document (NumberToString newTotal))]> d,
      inr (Num newTotal))) /\
  (getCumulativeSize d = (d, inr (VNumber n)) ->
   ledger_writable d = false ->
   exists e, updateCumulativeSize delta d = (d, inl (FsError e))) /\
  (ledger_holds d n = true ->
   ledger_writable d = true ->
   exists d',
     updateCumulativeSize delta d = (d', inr (Num newTotal)) /\
     ledger_holds d' newTotal = true /\
     forall p, p <> CUMULATIVE_SIZE_FILE -> d' !! p = d !! p) /\
  getCumulativeSize (∅ : disk) = (∅, inr (VNumber 0)) /\
  updateCumulativeSize 500 (∅ : disk) =
    ({[CUMULATIVE_SIZE_FILE := File (ledger_document "500") true true]},
     inr (Num 500)) /\
  updateCumulativeSize (-800)
    ({[CUMULATIVE_SIZE_FILE := File (ledger_document "500") true true]} : disk) =
    ({[CUMULATIVE_SIZE_FILE := File (ledger_document "0") true true]},
     inr (Num 0)).
Proof.
  intros Hn Hdelta Hsum newTotal.
  assert (Hempty : getCumulativeSize (∅ : disk) = (∅, inr (VNumber 0))).
  { rewrite getCumulativeSize_unfold. now rewrite lookup_empty. }
  split; [| split; [| split; [| split; [| split; [| split]]]]].
  - now apply getCumulativeSize_holds.
  - intros Hread Hw.
    now rewrite (updateCumulativeSize_numeric _ _ _ Hread), writeFile_ledger, Hw.
  - intros Hread Hw.
    rewrite (updateCumulativeSize_numeric _ _ _ Hread), writeFile_ledger, Hw. eauto.
  - intros Hholds Hw.
    pose proof (getCumulativeSize_holds d n Hn Hholds) as Hread.
    eexists. split; [| split].
    + now rewrite (updateCumulativeSize_numeric _ _ _ Hread), writeFile_ledger, Hw.
    + apply ledger_holds_insert. now apply (ledger_holds_readable d n).
    + intros p Hp. now rewrite lookup_insert_ne by congruence.
  - exact Hempty.
  - rewrite (updateCumulativeSize_numeric _ _ _ Hempty), writeFile_ledger.
    unfold ledger_writable, ledger_node. rewrite lookup_empty.
    rewrite insert_empty. reflexivity.
  - rewrite (updateCumulativeSize_numeric _ 500), writeFile_ledger.
    + unfold ledger_writable, ledger_node. rewrite lookup_singleton_eq.
      rewrite insert_singleton_eq. reflexivity.
    + apply (getCumulativeSize_written_safe _ 500 true true);
        [reflexivity | | reflexivity].
      now rewrite lookup_singleton_eq.
Qed.

(** X4: from a ledger that reads as [n], can be written and can be read,
    when every total, delta and sum on the way is a safe integer, every
    call of a sequence of updates succeeds and the totals left in the file
    are the clamped running totals of the deltas, starting from [n]. *)
Lemma disks_after_updates_totals (deltas : list Z) (d : disk) (n : Z) :
  getCumulativeSize d = (d, inr (VNumber n)) ->
  ledger_writable d = true ->
  ledger_readable d = true ->
  sums_safe n deltas = true ->
  exists ds,
    disks_after_updates deltas d = Some ds /\
    Forall2 (fun (d' : disk) t => ledger_holds d' t = true)
            ds (clamped_totals n deltas).
Proof.
  revert d n. induction deltas as [| delta rest IH]; intros d n Hread Hw Hr Hsafe.
  - exists []. split; [reflexivity | constructor].
  - simpl in Hsafe. apply andb_true_iff in Hsafe as [Hsafe Hrest].
    apply andb_true_iff in Hsafe as [_ Hsum].
    fold (Z.max 0 (n + delta)) in Hrest.
    set (t := Z.max 0 (n + delta)) in Hrest |- *.
    set (d' := <[CUMULATIVE_SIZE_FILE :=
                   ledger_node d (JSON_stringify_totalSize (Num t))]> d).
    assert (Hupd : updateCumulativeSize delta d = (d', inr (Num t)))
      by now apply updateCumulativeSize_writable.
    destruct (IH d' t) as (ds & Hds & Hall).
    + apply getCumulativeSize_insert_ledger_safe; [| exact Hr].
      now apply Number_isSafeInteger_max0.
    + now apply ledger_writable_insert.
    + now apply ledger_readable_insert.
    + exact Hrest.
    + exists (d' :: ds). split.
      * simpl. rewrite Hupd. now rewrite Hds.
      * simpl. constructor; [| exact Hall]. now apply ledger_holds_insert.
Qed.

(** X5: on a ledger that reads as [n], can be written and can be read, with
    the deltas and every sum on the way safe integers, two successive
    updates whose first does not hit the clamp ([0 <= n + delta1]) return
    [n + delta1] and [max 0 (n + delta1 + delta2)] and leave the disk
    exactly as the single update by [delta1 + delta2] does. *)
Theorem successive_updates_add_up (delta1 delta2 n : Z) (d : disk) :
  getCumulativeSize d = (d, inr (VNumber n)) ->
  ledger_writable d = true ->
  ledger_readable d = true ->
  0 <= n + delta1 ->
  Number_isSafeInteger n = true ->
  Number_isSafeInteger delta1 = true ->
  Number_isSafeInteger delta2 = true ->
  Number_isSafeInteger (n + delta1) = true ->
  Number_isSafeInteger (delta1 + delta2) = true ->
  Number_isSafeInteger (n + delta1 + delta2) = true ->
  exists d',
    successive_updates delta1 delta2 d =
      (d', inr (Num (n + delta1), Num (Z.max 0 (n + delta1 + delta2)))) /\
    updateCumulativeSize (delta1 + delta2) d =
      (d', inr (Num (Z.max 0 (n + delta1 + delta2)))).
Proof.
  intros Hread Hw Hr Hpos _ _ _ Hs1 _ _.
  eexists. split.
  - unfold successive_updates. run.
    rewrite (updateCumulativeSize_writable delta1 n d Hread Hw).
    rewrite (updateCumulativeSize_writable delta2 (Z.max 0 (n + delta1))).
    + rewrite ledger_node_insert, insert_insert_eq.
      rewrite (Z.max_r 0 (n + delta1)) by lia. reflexivity.
    + apply getCumulativeSize_insert_ledger_safe; [| exact Hr].
      now apply Number_isSafeInteger_max0.
    + now apply ledger_writable_insert.
  - rewrite (updateCumulativeSize_writable _ n d Hread Hw).
    now rewrite Z.add_assoc.
Qed.


(** X9: for a path other than the ledger file's, [deleteReportFile] leaves
    the disk exactly as it was if and only if its unlink did not succeed
    (the stat failed first, or the unlink itself failed), and it then
    returns [false]; once the unlink has succeeded the disk is never the
    same again, whatever becomes of the ledger. *)
Theorem deleteReportFile_unchanged_iff_not_unlinked (filePath : string) (d : disk) :
  filePath <> CUMULATIVE_SIZE_FILE ->
  ((deleteReportFile filePath d).1 = d <->
   (forall d1, unlink filePath d <> (d1, inr tt))) /\
  ((forall d1, unlink filePath d <> (d1, inr tt)) ->
   deleteReportFile filePath d = (d, inr false)).
Proof.
  intros Hne.
  assert (Hno : (forall d1, unlink filePath d <> (d1, inr tt)) ->
                deleteReportFile filePath d = (d, inr false)).
  { intros H. rewrite deleteReportFile_unfold. unfold unlink in H.
    destruct (d !! filePath) as [[data r w | sz] |]; try reflexivity.
    now destruct (H (delete filePath d)). }
  split; [| exact Hno]. split.
  - intros Hsame d1 Hunlink. unfold unlink in Hunlink.
    destruct (d !! filePath) as [[data r w | sz] |] eqn:E; try discriminate.
    apply (deleteReportFile_path_gone filePath d Hne data r w).
    now rewrite Hsame.
  - intros H. now rewrite (Hno H).
Qed.

(** X12: whenever the stat and the unlink of a path other than the ledger
    file's succeed and the ledger file cannot be written,
    [deleteReportFile] returns [false] with the file gone and nothing else
    changed, so the ledger keeps counting the deleted file. *)
Theorem deleteReportFile_unwritable_ledger
    (filePath : string) (d d1 : disk) (sz : Z) :
  stat filePath d = (d, inr sz) ->
  unlink filePath d = (d1, inr tt) ->
  filePath <> CUMULATIVE_SIZE_FILE ->
  ledger_writable d = false ->
  deleteReportFile filePath d = (d1, inr false) /\
  d1 !! filePath = None /\
  forall p, p <> filePath -> d1 !! p = d !! p.
Proof.
  intros _ Hunlink Hne Hw. unfold unlink in Hunlink.
  rewrite deleteReportFile_unfold.
  destruct (d !! filePath) as [[data r w | sz'] |]; try discriminate.
  injection Hunlink as <-.
  assert (Hw' : ledger_writable (delete filePath d) = false).
  { unfold ledger_writable in *. now rewrite lookup_delete_ne by exact Hne. }
  destruct (updateCumulativeSize_unwritable (- Z.of_nat (String.length data)) _ Hw')
    as [e ->].
  split; [reflexivity |]. split; [apply lookup_delete_eq |].
  intros p Hp. now rewrite lookup_delete_ne by congruence.
Qed.

(** X16: on a ledger that reads as [n >= 0], can be written and can be
    read, with the upload directory in place and [n] plus the file's length
    a safe integer, uploading one accepted file of at most 20 MiB and then
    deleting the stored file restores the books: the deletion returns
    [true], the stored file is gone, the ledger file holds [n] again and
    every other path is as it was before the upload. *)
Theorem upload_then_delete_restores_ledger
    (now : Z) (random : Q) (part : upload_part) (w : world) (n : Z) :
  getCumulativeSize (files w) = (files w, inr (VNumber n)) ->
  0 <= n ->
  ledger_writable (files w) = true ->
  ledger_readable (files w) = true ->
  (exists sz, files w !! reportUploadDirectory = Some (Directory sz)) ->
  Number_isSafeInteger (n + Z.of_nat (String.length (content part))) = true ->
  fieldname (part_meta part) = "report_pdf" ->
  fileFilter (part_meta part) = inr true ->
  Z.of_nat (String.length (content part)) <= limits_fileSize ->
  let stored :=
    path_join reportUploadDirectory (storage_filename now random (part_meta part)) in
  exists w1 d2,
    handleFileUpload now random [part] w = (w1, inr tt) /\
    deleteReportFile stored (files w1) = (d2, inr true) /\
    d2 !! stored = None /\
    d2 !! CUMULATIVE_SIZE_FILE =
      Some (ledger_node (files w) (ledger_document (NumberToString n))) /\
    forall p, p <> stored -> p <> CUMULATIVE_SIZE_FILE -> d2 !! p = files w !! p.
Proof.
  intros Hread Hn Hw Hr Hdir Hsafe Hfield Hfilter Hsmall stored.
  assert (Hne : stored <> CUMULATIVE_SIZE_FILE) by apply stored_path_not_ledger.
  rewrite (handleFileUpload_accepted now random part w Hfield Hfilter Hsmall).
  fold stored.
  set (bytes := Z.of_nat (String.length (content part))).
  set (d1 := <[stored := File (content part) true true]> (files w)).
  set (f := {| meta := part_meta part; destination := reportUploadDirectory;
               filename := storage_filename now random (part_meta part);
               path := stored; size := bytes |}).
  assert (HL1 : d1 !! CUMULATIVE_SIZE_FILE = files w !! CUMULATIVE_SIZE_FILE).
  { unfold d1. now rewrite lookup_insert_ne by exact Hne. }
  assert (Hread1 : getCumulativeSize d1 = (d1, inr (VNumber n))).
  { unfold d1. now apply getCumulativeSize_insert_other. }
  assert (Hw1 : ledger_writable d1 = true) by now rewrite (ledger_writable_ext _ (files w)).
  assert (Hr1 : ledger_readable d1 = true) by now rewrite (ledger_readable_ext _ (files w)).
  assert (Hbytes : 0 <= bytes) by (unfold bytes; lia).
  destruct (Z.eq_dec bytes 0) as [Hz | Hnz].
  - rewrite upload_callback_without_file by (right; exists f; now split).
    eexists _, _. split; [reflexivity |]. simpl.
    assert (Hfile : d1 !! stored = Some (File (content part) true true))
      by apply lookup_insert_eq.
    rewrite (deleteReportFile_counts_out stored d1 _ _ _ n Hfile Hne Hread1 Hw1).
    fold bytes. rewrite Hz.
    split; [reflexivity |]. split; [| split].
    + rewrite lookup_insert_ne by congruence. apply lookup_delete_eq.
    + rewrite lookup_insert_eq. f_equal.
      rewrite (ledger_node_ext d1 (files w)) by exact HL1.
      now rewrite Z.add_0_r, Z.max_r by lia.
    + intros p Hp Hpl. rewrite lookup_insert_ne by congruence.
      rewrite lookup_delete_ne by congruence.
      unfold d1. now rewrite lookup_insert_ne by congruence.
  - rewrite (upload_callback_with_file f _ Hnz). simpl.
    rewrite (updateCumulativeSize_writable _ _ _ Hread1 Hw1).
    set (t := Z.max 0 (n + bytes)).
    set (d1' := <[CUMULATIVE_SIZE_FILE :=
                    ledger_node d1 (JSON_stringify_totalSize (Num t))]> d1).
    eexists _, _. split; [reflexivity |]. simpl.
    assert (Hfile : d1' !! stored = Some (File (content part) true true)).
    { unfold d1'. rewrite lookup_insert_ne by congruence. apply lookup_insert_eq. }
    assert (Hread1' : getCumulativeSize d1' = (d1', inr (VNumber t))).
    { apply getCumulativeSize_insert_ledger_safe; [| exact Hr1].
      now apply Number_isSafeInteger_max0. }
    assert (Hw1' : ledger_writable d1' = true) by now apply ledger_writable_insert.
    rewrite (deleteReportFile_counts_out stored d1' _ _ _ t Hfile Hne Hread1' Hw1').
    fold bytes.
    split; [reflexivity |]. split; [| split].
    + rewrite lookup_insert_ne by congruence. apply lookup_delete_eq.
    + rewrite lookup_insert_eq. f_equal. unfold d1'.
      rewrite ledger_node_insert, (ledger_node_ext d1 (files w)) by exact HL1.
      replace (Z.max 0 (t + - bytes)) with n by (unfold t; lia).
      reflexivity.
    + intros p Hp Hpl. rewrite lookup_insert_ne by congruence.
      rewrite lookup_delete_ne by congruence.
      unfold d1'. rewrite lookup_insert_ne by congruence.
      unfold d1. now rewrite lookup_insert_ne by congruence.
Qed.




(** C4: for every uploaded file, as the upload library hands it to the
    filter, the filter accepts it if and only if the type the client
    declared and the extension of the file name each contain [pdf] in some
    letter case, anywhere in them; every other file is refused with the
    invalid-type error.  So a file named [a b.txt] is refused whatever type
    it declares, and [Application/X-PDF-ish] passes with [scan.PDF]. *)
Theorem uploaded_file_accepted_iff (p : declared_file) :
  (fileFilter (part_meta (file_of_declared p)) = inr true <->
   (exists pre x post,
      declared_type p = pre +:+ x +:+ post /\ toLowerCase x = "pdf") /\
   (exists pre x post,
      extname (declared_name p) = pre +:+ x +:+ post /\ toLowerCase x = "pdf")) /\
  (fileFilter (part_meta (file_of_declared p)) = inr true \/
   fileFilter (part_meta (file_of_declared p)) =
     inl (PlainError "Invalid file type. Only PDF files are allowed.")) /\
  (forall field type content,
     fileFilter (part_meta (file_of_declared
                   {| declared_field := field; declared_name := "a b.txt";
                      declared_type := type; declared_content := content |})) =
       inl (PlainError "Invalid file type. Only PDF files are allowed.")) /\
  (forall field content,
     fileFilter (part_meta (file_of_declared
                   {| declared_field := field; declared_name := "scan.PDF";
                      declared_type := "Application/X-PDF-ish";
                      declared_content := content |})) = inr true).
Proof.
  split; [| split; [| split]].
  - rewrite <- !regexp_test_lower_spec. unfold fileFilter, filetypes.
    cbn [part_meta file_of_declared mimetype originalname].
    destruct (regexp_test "pdf" (toLowerCase (declared_type p)));
      destruct (regexp_test "pdf" (toLowerCase (extname (declared_name p))));
      simpl; (split; [intros H; try discriminate; auto
                     | intros [H1 H2]; try discriminate; auto]).
  - apply fileFilter_true_or_error.
  - intros field type content. unfold fileFilter.
    cbn [part_meta file_of_declared mimetype originalname declared_name declared_type].
    change (regexp_test filetypes (toLowerCase (extname "a b.txt"))) with false.
    now rewrite andb_false_r.
  - intros field content. vm_compute. reflexivity.
Qed.

(** C7: with [resolve] the file system's resolution of a path to the name
    of the file it points at, which leaves the ledger file's own name as it
    is: [deleteReportFile] always returns, and returns [true] exactly when
    the stat, the unlink and the update of the ledger by minus the size all
    succeed; and when it returns [true] for a path that does not resolve to
    the ledger file, the file existed, it is gone afterwards, and a ledger
    file that held [{"totalSize":n}], with [n], the size and [n - size] safe
    integers, then holds [max 0 (n - size)]. *)
Theorem deleteReportFile_true_iff_all_steps
    (resolve : string -> string) (filePath : string) (d : disk) :
  resolve CUMULATIVE_SIZE_FILE = CUMULATIVE_SIZE_FILE ->
  let file := resolve filePath in
  (exists d' b,
     deleteReportFile file d = (d', inr b) /\
     (b = true <->
      exists sz d1 total,
        stat file d = (d, inr sz) /\
        unlink file d = (d1, inr tt) /\
        updateCumulativeSize (- sz) d1 = (d', inr total))) /\
  (forall d',
     file <> resolve CUMULATIVE_SIZE_FILE ->
     deleteReportFile file d = (d', inr true) ->
     exists data r w,
       d !! file = Some (File data r w) /\
       d' !! file = None /\
       forall n,
         ledger_holds d n = true ->
         Number_isSafeInteger n = true ->
         Number_isSafeInteger (Z.of_nat (String.length data)) = true ->
         Number_isSafeInteger (n - Z.of_nat (String.length data)) = true ->
         ledger_holds d' (Z.max 0 (n - Z.of_nat (String.length data))) = true).
Proof.
  intros Hres file. split.
  - rewrite deleteReportFile_unfold. unfold stat, unlink.
    destruct (d !! file) as [[data r w | sz] |] eqn:E.
    + destruct (updateCumulativeSize _ _) as [d2 [e | total]] eqn:U.
      * exists d2, false. split; [reflexivity |]. split; [discriminate |].
        intros (sz & d1 & total & Hs & Hu & Hupd).
        injection Hs as <-. injection Hu as <-. rewrite U in Hupd. discriminate.
      * exists d2, true. split; [reflexivity |]. split; [| reflexivity].
        intros _. exists (Z.of_nat (String.length data)), (delete file d), total.
        split; [reflexivity | split; [reflexivity | exact U]].
    + exists d, false. split; [reflexivity |]. split; [discriminate |].
      intros (sz' & d1 & total & _ & Hu & _). discriminate.
    + exists d, false. split; [reflexivity |]. split; [discriminate |].
      intros (sz' & d1 & total & Hs & _). discriminate.
  - intros d' Hne. rewrite Hres in Hne. rewrite deleteReportFile_unfold.
    destruct (d !! file) as [[data r w | sz] |] eqn:E; try discriminate.
    destruct (updateCumulativeSize _ _) as [d2 [e | total]] eqn:U; try discriminate.
    intros [= <-]. exists data, r, w. split; [reflexivity |].
    assert (HL : delete file d !! CUMULATIVE_SIZE_FILE = d !! CUMULATIVE_SIZE_FILE)
      by now rewrite lookup_delete_ne.
    split.
    + pose proof (updateCumulativeSize_other_paths
                    (- Z.of_nat (String.length data)) (delete file d) file Hne) as Hp.
      rewrite U in Hp. simpl in Hp. rewrite Hp. apply lookup_delete_eq.
    + intros n Hholds Hn _ Hdiff.
      assert (Hread : getCumulativeSize (delete file d) =
                      (delete file d, inr (VNumber n))).
      { apply getCumulativeSize_holds; [exact Hn |].
        now rewrite (ledger_holds_ext _ d). }
      rewrite (updateCumulativeSize_numeric _ _ _ Hread), writeFile_ledger in U.
      destruct (ledger_writable (delete file d)); [| discriminate].
      injection U as <- _.
      change (n + - Z.of_nat (String.length data))
        with (n - Z.of_nat (String.length data)).
      apply ledger_holds_insert.
      rewrite (ledger_readable_ext _ d) by exact HL.
      now apply (ledger_holds_readable _ n).
Qed.

End Middleware.

(** ** Instances *)

Lemma strip_prefix_app (p s : string) : strip_prefix p (p +:+ s) = Some s.
Proof.
  induction p as [| a p IH]; [reflexivity |].
  rewrite append_cons. simpl. now rewrite Ascii.eqb_refl.
Qed.

Lemma strip_last_app (s : string) (c : ascii) :
  strip_last (s +:+ String c "") = Some (s, c).
Proof.
  induction s as [| a s IH]; [reflexivity |].
  rewrite append_cons. simpl. rewrite IH.
  destruct (s +:+ String c "") eqn:E; [| reflexivity].
  destruct s; discriminate.
Qed.

Lemma NumberToString_parses (n : Z) :
  NilZero.int_of_string (NumberToString n) = Some (Z.to_int n).
Proof.
  unfold NumberToString. apply NilZero.isi.
  - destruct n; simpl; [discriminate | | discriminate].
    intros [= H]. now apply DecimalPos.Unsigned.to_uint_nonnil in H.
  - destruct n; simpl; [discriminate | discriminate |].
    intros [= H]. now apply DecimalPos.Unsigned.to_uint_nonnil in H.
Qed.

(** [ledger_parse] reads back every document the ledger writes. *)
Lemma ledger_parse_stringify (n : Z) :
  ledger_parse (JSON_stringify_totalSize (Num n))
  = Some (VObject [("totalSize", VNumber n)]).
Proof.
  unfold ledger_parse.
  change (JSON_stringify_totalSize (Num n))
    with (("{" +:+ dquote +:+ "totalSize" +:+ dquote +:+ ":") +:+
          (NumberToString n +:+ String "}" "")).
  rewrite strip_prefix_app, strip_last_app. simpl.
  now rewrite NumberToString_parses, DecimalZ.of_to.
Qed.

(** The premises of C3 hold on an absent ledger. *)
Lemma ledger_never_negative_witness :
  getCumulativeSize ledger_parse (∅ : disk) = (∅, inr (VNumber 0)) /\
  ledger_writable (∅ : disk) = true /\
  exists ds,
    disks_after_updates ledger_parse no_ToPrimitive nan_StringToNumber
      [500; -800; -1000; 7] ∅ = Some ds /\
    length ds = 4%nat /\
    Forall (fun d' : disk =>
              exists t r w,
                0 <= t /\
                d' !! CUMULATIVE_SIZE_FILE =
                  Some (File (ledger_document (NumberToString t)) r w))
           ds.
Proof.
  split; [reflexivity | split; [reflexivity |]].
  exact (proj1 (ledger_never_negative
                  ledger_parse no_ToPrimitive nan_StringToNumber
                  ledger_parse_stringify [500; -800; -1000; 7] ∅ 0
                  eq_refl eq_refl)).
Defined.

(** The premises of C8 hold for the forged text file. *)
Lemma rejected_upload_leaves_ledger_witness :
  upload_single "/srv/reports" "report_pdf" 1700000000000 (1 # 2) [forged_text_part]
    (files fresh_world) =
    (∅, (Some (PlainError "Invalid file type. Only PDF files are allowed."), None)) /\
  exists code text,
    handleFileUpload ledger_parse no_ToPrimitive nan_StringToNumber "/srv/reports"
      1700000000000 (1 # 2) [forged_text_part] fresh_world =
      ({| files := files fresh_world;
          sent := sent fresh_world ++
            [Responded code {| status := false; status_code := code; message := text |}] |},
       inr tt).
Proof.
  split; [reflexivity |].
  exact (proj1 (rejected_upload_leaves_ledger
                  ledger_parse no_ToPrimitive nan_StringToNumber "/srv/reports"
                  1700000000000 (1 # 2) [forged_text_part] fresh_world ∅
                  (PlainError "Invalid file type. Only PDF files are allowed.") None
                  eq_refl)).
Defined.

(** The premises of C9 hold for the random value one half. *)
Lemma storage_filename_format_witness :
  (0 <= 1 # 2)%Q /\ (1 # 2 < 1)%Q /\
  exists randomInt : Z,
    0 <= randomInt <= 1000000000 /\
    storage_filename 1700000000000 (1 # 2) (part_meta small_pdf_part) =
      (NumberToString 1700000000000 +:+ "-" +:+ NumberToString randomInt) +:+
      "-" +:+ originalname (part_meta small_pdf_part).
Proof.
  assert (H0 : (0 <= 1 # 2)%Q) by (unfold Qle; simpl; lia).
  assert (H1 : (1 # 2 < 1)%Q) by reflexivity.
  split; [exact H0 | split; [exact H1 |]].
  exact (storage_filename_format 1700000000000 (1 # 2) (part_meta small_pdf_part) H0 H1).
Defined.

(** [ledger_parse] also meets the weaker assumption on the parser. *)
Lemma ledger_parse_stringify_safe (n : Z) :
  Number_isSafeInteger n = true ->
  ledger_parse (JSON_stringify_totalSize (Num n))
  = Some (VObject [("totalSize", VNumber n)]).
Proof. intros _. apply ledger_parse_stringify. Qed.

(** The premises of C6 hold for [ledger_parse]: the ledger that holds 500
    reads as 500, an absent one as 0. *)
Lemma getCumulativeSize_reads_or_zero_witness :
  Number_isSafeInteger 500 = true /\
  ledger_500 !! CUMULATIVE_SIZE_FILE =
    Some (File (ledger_document (NumberToString 500)) true true) /\
  getCumulativeSize ledger_parse ledger_500 = (ledger_500, inr (VNumber 500)) /\
  getCumulativeSize ledger_parse (∅ : disk) = (∅, inr (VNumber 0)).
Proof.
  assert (Hs : Number_isSafeInteger 500 = true) by reflexivity.
  assert (Hf : ledger_500 !! CUMULATIVE_SIZE_FILE =
               Some (File (ledger_document (NumberToString 500)) true true))
    by reflexivity.
  assert (He : (∅ : disk) !! CUMULATIVE_SIZE_FILE = None) by reflexivity.
  split; [exact Hs | split; [exact Hf | split]].
  - exact (proj2 (proj2 (proj2 (proj2 (proj2 (proj2
             (getCumulativeSize_reads_or_zero
                ledger_parse ledger_parse_stringify_safe ledger_500))))))
             500 true Hs Hf).
  - exact (proj1 (proj2 (getCumulativeSize_reads_or_zero
                           ledger_parse ledger_parse_stringify_safe ∅)) He).
Defined.

(** The premises of C1 hold on the ledger that holds 500, for the delta 7. *)
Lemma updateCumulativeSize_clamps_and_overwrites_witness :
  Number_isSafeInteger 500 = true /\
  Number_isSafeInteger 7 = true /\
  Number_isSafeInteger (500 + 7) = true /\
  ledger_holds ledger_500 500 = true /\
  ledger_writable ledger_500 = true /\
  getCumulativeSize ledger_parse ledger_500 = (ledger_500, inr (VNumber 500)) /\
  updateCumulativeSize ledger_parse no_ToPrimitive nan_StringToNumber 7 ledger_500 =
    (<[CUMULATIVE_SIZE_FILE :=
         ledger_node ledger_500
           (ledger_document (NumberToString (Z.max 0 (500 + 7))))]> ledger_500,
     inr (Num (Z.max 0 (500 + 7)))).
Proof.
  assert (H1 : Number_isSafeInteger 500 = true) by reflexivity.
  assert (H2 : Number_isSafeInteger 7 = true) by reflexivity.
  assert (H3 : Number_isSafeInteger (500 + 7) = true) by reflexivity.
  assert (Hh : ledger_holds ledger_500 500 = true) by reflexivity.
  assert (Hw : ledger_writable ledger_500 = true) by reflexivity.
  destruct (updateCumulativeSize_clamps_and_overwrites
              ledger_parse no_ToPrimitive nan_StringToNumber
              ledger_parse_stringify_safe 7 500 ledger_500 H1 H2 H3)
    as (Hread & Hupd & _).
  split; [exact H1 | split; [exact H2 | split; [exact H3 |]]].
  split; [exact Hh | split; [exact Hw | split]].
  - exact (Hread Hh).
  - exact (Hupd (Hread Hh) Hw).
Defined.


(** The premises of C7 hold for the stored report beside the ledger that
    holds 500. *)
Lemma deleteReportFile_true_iff_all_steps_witness :
  resolve_in_cwd CUMULATIVE_SIZE_FILE = CUMULATIVE_SIZE_FILE /\
  resolve_in_cwd stored_report <> resolve_in_cwd CUMULATIVE_SIZE_FILE /\
  ledger_holds report_and_ledger_500 500 = true /\
  deleteReportFile ledger_parse no_ToPrimitive nan_StringToNumber
    (resolve_in_cwd stored_report) report_and_ledger_500 =
    (<[CUMULATIVE_SIZE_FILE := File (ledger_document "495") true true]>
       (delete stored_report report_and_ledger_500),
     inr true) /\
  (<[CUMULATIVE_SIZE_FILE := File (ledger_document "495") true true]>
     (delete stored_report report_and_ledger_500) : disk)
    !! resolve_in_cwd stored_report = None /\
  ledger_holds
    (<[CUMULATIVE_SIZE_FILE := File (ledger_document "495") true true]>
       (delete stored_report report_and_ledger_500))
    (Z.max 0 (500 - 5)) = true.
Proof.
  assert (Hres : resolve_in_cwd CUMULATIVE_SIZE_FILE = CUMULATIVE_SIZE_FILE)
    by reflexivity.
  assert (Hne : resolve_in_cwd stored_report <> resolve_in_cwd CUMULATIVE_SIZE_FILE)
    by (vm_compute; discriminate).
  assert (Hh : ledger_holds report_and_ledger_500 500 = true) by reflexivity.
  assert (Hrun : deleteReportFile ledger_parse no_ToPrimitive nan_StringToNumber
                   (resolve_in_cwd stored_report) report_and_ledger_500 =
                 (<[CUMULATIVE_SIZE_FILE := File (ledger_document "495") true true]>
                    (delete stored_report report_and_ledger_500),
                  inr true)) by reflexivity.
  destruct (proj2 (deleteReportFile_true_iff_all_steps
                     ledger_parse no_ToPrimitive nan_StringToNumber
                     ledger_parse_stringify_safe resolve_in_cwd stored_report
                     report_and_ledger_500 Hres)
              _ Hne Hrun)
    as (data & r & w & Hfile & Hgone & Hledger).
  assert (Hdata : data = "%PDF-") by (vm_compute in Hfile; congruence).
  subst data.
  split; [exact Hres | split; [exact Hne | split; [exact Hh | split; [exact Hrun |]]]].
  split; [exact Hgone |].
  apply (Hledger 500 Hh); reflexivity.
Defined.

(** ** Where the specification and the code part *)

(** Against C9 as worded: for a value of [Math.random()] just below 1 the
    integer in the file name is 1e9 itself. *)
Lemma storage_filename_random_reaches_1e9 :
  (0 <= random_near_one)%Q /\ (random_near_one < 1)%Q /\
  Math_round (random_near_one * inject_Z 1000000000) = 1000000000 /\
  ~ Math_round (random_near_one * inject_Z 1000000000) < 1000000000 /\
  storage_filename 1700000000000 random_near_one (part_meta small_pdf_part) =
    "1700000000000-1000000000-report.pdf".
Proof.
  split; [unfold Qle; simpl; lia |].
  split; [reflexivity |].
  split; [reflexivity |].
  split; [vm_compute; discriminate | reflexivity].
Qed.

(** Against C1 as worded: on a ledger file that can be read but not
    written the call is rejected; no total is returned and the file keeps
    the old one. *)
Lemma updateCumulativeSize_rejected_on_read_only_ledger :
  getCumulativeSize ledger_parse read_only_ledger_disk =
    (read_only_ledger_disk, inr (VNumber 500)) /\
  updateCumulativeSize ledger_parse no_ToPrimitive nan_StringToNumber 7
    read_only_ledger_disk = (read_only_ledger_disk, inl (FsError EACCES)) /\
  read_only_ledger_disk !! CUMULATIVE_SIZE_FILE =
    Some (File (ledger_document "500") true false) /\
  ledger_holds read_only_ledger_disk (Z.max 0 (500 + 7)) = false.
Proof.
  split; [reflexivity |]. split; [reflexivity |]. split; reflexivity.
Qed.


(** Against C7 as worded: asked to delete the ledger file itself, under
    the name the module uses or under the bare name that resolves to it,
    [deleteReportFile] returns [true], yet a file is present at the path
    afterwards and the total is 0, not the old total less the size. *)
Lemma deleteReportFile_ledger_path_recreated :
  resolve_in_cwd "cumulativeSize.json" = CUMULATIVE_SIZE_FILE /\
  resolve_in_cwd CUMULATIVE_SIZE_FILE = CUMULATIVE_SIZE_FILE /\
  ledger_holds ledger_500 500 = true /\
  stat CUMULATIVE_SIZE_FILE ledger_500 = (ledger_500, inr 17) /\
  deleteReportFile ledger_parse no_ToPrimitive nan_StringToNumber
    (resolve_in_cwd "cumulativeSize.json") ledger_500 =
    ({[ CUMULATIVE_SIZE_FILE := File (ledger_document "0") true true ]}, inr true) /\
  deleteReportFile ledger_parse no_ToPrimitive nan_StringToNumber
    (resolve_in_cwd CUMULATIVE_SIZE_FILE) ledger_500 =
    ({[ CUMULATIVE_SIZE_FILE := File (ledger_document "0") true true ]}, inr true) /\
  ({[ CUMULATIVE_SIZE_FILE := File (ledger_document "0") true true ]} : disk)
    !! CUMULATIVE_SIZE_FILE <> None /\
  ledger_holds
    ({[ CUMULATIVE_SIZE_FILE := File (ledger_document "0") true true ]} : disk)
    (Z.max 0 (500 - 17)) = false.
Proof.
  assert (Hrun : deleteReportFile ledger_parse no_ToPrimitive nan_StringToNumber
                   CUMULATIVE_SIZE_FILE ledger_500 =
                 ({[ CUMULATIVE_SIZE_FILE := File (ledger_document "0") true true ]},
                  inr true)).
  { rewrite deleteReportFile_unfold. unfold ledger_500.
    rewrite lookup_singleton_eq, delete_singleton_eq. reflexivity. }
  split; [reflexivity |]. split; [reflexivity |]. split; [reflexivity |].
  split; [reflexivity |]. split; [exact Hrun |]. split; [exact Hrun |]. split.
  - now rewrite lookup_singleton_eq.
  - reflexivity.
Qed.

(** ** Instances for the further properties *)

Lemma updateCumulativeSize_touches_only_ledger_witness :
  updateCumulativeSize ledger_parse no_ToPrimitive nan_StringToNumber 7
    report_and_ledger_500 =
    (<[CUMULATIVE_SIZE_FILE := File (ledger_document "507") true true]>
       report_and_ledger_500,
     inr (Num 507)) /\
  stored_report <> CUMULATIVE_SIZE_FILE /\
  (<[CUMULATIVE_SIZE_FILE := File (ledger_document "507") true true]>
     report_and_ledger_500) !! stored_report =
  report_and_ledger_500 !! stored_report.
Proof.
  assert (Hne : stored_report <> CUMULATIVE_SIZE_FILE) by (vm_compute; discriminate).
  split; [reflexivity | split; [exact Hne |]].
  exact (updateCumulativeSize_touches_only_ledger
           ledger_parse no_ToPrimitive nan_StringToNumber 7 report_and_ledger_500
           _ _ stored_report eq_refl Hne).
Defined.

Lemma updateCumulativeSize_fulfilled_iff_writable_witness :
  getCumulativeSize ledger_parse read_only_ledger_disk =
    (read_only_ledger_disk, inr (VNumber 500)) /\
  updateCumulativeSize ledger_parse no_ToPrimitive nan_StringToNumber 7
    read_only_ledger_disk =
    (read_only_ledger_disk, inl (FsError EACCES)).
Proof.
  split; [reflexivity |].
  exact (proj2 (updateCumulativeSize_fulfilled_iff_writable
                  ledger_parse no_ToPrimitive nan_StringToNumber 7 500
                  read_only_ledger_disk eq_refl)
               eq_refl).
Defined.

Lemma updateCumulativeSize_discards_unreadable_ledger_witness :
  write_only_ledger !! CUMULATIVE_SIZE_FILE =
    Some (File (ledger_document "500") false true) /\
  updateCumulativeSize ledger_parse no_ToPrimitive nan_StringToNumber 7
    write_only_ledger =
    (<[CUMULATIVE_SIZE_FILE :=
         File (ledger_document (NumberToString (Z.max 0 7))) false true]>
       write_only_ledger,
     inr (Num (Z.max 0 7))).
Proof.
  split; [reflexivity |].
  exact (updateCumulativeSize_discards_unreadable_ledger
           ledger_parse no_ToPrimitive nan_StringToNumber 7 write_only_ledger
           (ledger_document "500") false eq_refl (or_introl eq_refl)).
Defined.

Lemma getCumulativeSize_zero_without_truthy_total_witness :
  ledger_500 !! CUMULATIVE_SIZE_FILE = Some (File (ledger_document "500") true true) /\
  null_parse (ledger_document "500") = Some VNull /\
  getCumulativeSize null_parse ledger_500 = (ledger_500, inr (VNumber 0)).
Proof.
  split; [reflexivity | split; [reflexivity |]].
  apply (getCumulativeSize_zero_without_truthy_total
           null_parse ledger_500 (ledger_document "500") true VNull eq_refl eq_refl).
  left. intros props H. discriminate H.
Defined.

Lemma updateCumulativeSize_appends_to_text_total_witness :
  ledger_500 !! CUMULATIVE_SIZE_FILE = Some (File (ledger_document "500") true true) /\
  text_ledger_parse (ledger_document "500") =
    Some (VObject [("totalSize", VString "abc")]) /\
  own_property "totalSize" [("totalSize", VString "abc")] = Some (VString "abc") /\
  updateCumulativeSize text_ledger_parse no_ToPrimitive nan_StringToNumber 5 ledger_500 =
    (<[CUMULATIVE_SIZE_FILE := File (ledger_document "null") true true]> ledger_500,
     inr NaN).
Proof.
  split; [reflexivity | split; [reflexivity | split; [reflexivity |]]].
  refine (proj1 (updateCumulativeSize_appends_to_text_total
                   text_ledger_parse no_ToPrimitive nan_StringToNumber 5 ledger_500
                   (ledger_document "500") "abc" [("totalSize", VString "abc")]
                   eq_refl eq_refl eq_refl _)).
  intros H. discriminate H.
Defined.

Lemma deleteReportFile_again_changes_nothing_witness :
  stored_report <> CUMULATIVE_SIZE_FILE /\
  deleteReportFile ledger_parse no_ToPrimitive nan_StringToNumber stored_report
    report_and_ledger_500 =
    (<[CUMULATIVE_SIZE_FILE := File (ledger_document "495") true true]>
       (delete stored_report report_and_ledger_500),
     inr true) /\
  deleteReportFile ledger_parse no_ToPrimitive nan_StringToNumber stored_report
    (<[CUMULATIVE_SIZE_FILE := File (ledger_document "495") true true]>
       (delete stored_report report_and_ledger_500)) =
    (<[CUMULATIVE_SIZE_FILE := File (ledger_document "495") true true]>
       (delete stored_report report_and_ledger_500),
     inr false).
Proof.
  assert (Hne : stored_report <> CUMULATIVE_SIZE_FILE) by (vm_compute; discriminate).
  split; [exact Hne | split; [reflexivity |]].
  exact (deleteReportFile_again_changes_nothing
           ledger_parse no_ToPrimitive nan_StringToNumber stored_report
           report_and_ledger_500 _ true Hne eq_refl).
Defined.

Lemma deleteReportFile_touches_two_paths_witness :
  "/srv/reports/b.pdf" <> stored_report /\
  "/srv/reports/b.pdf" <> CUMULATIVE_SIZE_FILE /\
  (deleteReportFile ledger_parse no_ToPrimitive nan_StringToNumber stored_report
     (<["/srv/reports/b.pdf" := File "%PDF-1.7" true true]> report_and_ledger_500)).1
    !! "/srv/reports/b.pdf" =
  (<["/srv/reports/b.pdf" := File "%PDF-1.7" true true]> report_and_ledger_500)
    !! "/srv/reports/b.pdf".
Proof.
  assert (H1 : "/srv/reports/b.pdf" <> stored_report) by (vm_compute; discriminate).
  assert (H2 : "/srv/reports/b.pdf" <> CUMULATIVE_SIZE_FILE) by (vm_compute; discriminate).
  split; [exact H1 | split; [exact H2 |]].
  exact (deleteReportFile_touches_two_paths
           ledger_parse no_ToPrimitive nan_StringToNumber stored_report
           "/srv/reports/b.pdf" _ H1 H2).
Defined.

Lemma upload_callback_unwritable_ledger_witness :
  size small_req_file <> 0 /\
  ledger_writable read_only_ledger_disk = false /\
  exists e,
    upload_callback ledger_parse no_ToPrimitive nan_StringToNumber None
      (Some small_req_file) {| files := read_only_ledger_disk; sent := [] |} =
      ({| files := read_only_ledger_disk;
          sent := [] ++ [Called_updateCumulativeSize (size small_req_file)] |},
       inl e).
Proof.
  assert (Hsz : size small_req_file <> 0) by (vm_compute; discriminate).
  split; [exact Hsz | split; [reflexivity |]].
  exact (upload_callback_unwritable_ledger
           ledger_parse no_ToPrimitive nan_StringToNumber small_req_file
           {| files := read_only_ledger_disk; sent := [] |} Hsz eq_refl).
Defined.

Lemma handleFileUpload_agrees_with_original_witness :
  upload_single "/srv/reports" "report_pdf" 1700000000000 (1 # 2) [forged_text_part]
    (files fresh_world) =
    (∅, (Some (PlainError "Invalid file type. Only PDF files are allowed."), None)) /\
  handleFileUpload ledger_parse no_ToPrimitive nan_StringToNumber "/srv/reports"
    1700000000000 (1 # 2) [forged_text_part] fresh_world =
  handleFileUpload_original "/srv/reports" 1700000000000 (1 # 2) [forged_text_part]
    fresh_world.
Proof.
  split; [reflexivity |].
  apply (proj1 (handleFileUpload_agrees_with_original
                  ledger_parse no_ToPrimitive nan_StringToNumber "/srv/reports"
                  1700000000000 (1 # 2) [forged_text_part] fresh_world ∅
                  (Some (PlainError "Invalid file type. Only PDF files are allowed."))
                  None eq_refl)).
  left. discriminate.
Defined.

Lemma fileFilter_accepted_name_mentions_pdf_witness :
  fileFilter (part_meta small_pdf_part) = inr true /\
  exists pre x post,
    originalname (part_meta small_pdf_part) = pre +:+ x +:+ post /\
    toLowerCase x = "pdf".
Proof.
  split; [reflexivity |].
  exact (fileFilter_accepted_name_mentions_pdf (part_meta small_pdf_part) eq_refl).
Defined.

Lemma generateUniqueFileName_collides_on_whitespace_witness :
  all_chars is_whitespace " " = true /\
  all_chars is_whitespace (String "009" "  ") = true /\
  generateUniqueFileName 1700000000000 ("a" +:+ " " +:+ "b.pdf") =
  generateUniqueFileName 1700000000000 ("a" +:+ String "009" "  " +:+ "b.pdf").
Proof.
  split; [reflexivity | split; [reflexivity |]].
  exact (generateUniqueFileName_collides_on_whitespace
           1700000000000 "a" " " (String "009" "  ") "b.pdf"
           ltac:(discriminate) eq_refl ltac:(discriminate) eq_refl).
Defined.

Lemma disks_after_updates_totals_witness :
  getCumulativeSize ledger_parse (∅ : disk) = (∅, inr (VNumber 0)) /\
  ledger_writable (∅ : disk) = true /\
  ledger_readable (∅ : disk) = true /\
  sums_safe 0 [500; -800; 7] = true /\
  exists ds,
    disks_after_updates ledger_parse no_ToPrimitive nan_StringToNumber
      [500; -800; 7] ∅ = Some ds /\
    Forall2 (fun (d' : disk) t => ledger_holds d' t = true)
            ds (clamped_totals 0 [500; -800; 7]).
Proof.
  assert (Hread : getCumulativeSize ledger_parse (∅ : disk) = (∅, inr (VNumber 0)))
    by reflexivity.
  assert (Hw : ledger_writable (∅ : disk) = true) by reflexivity.
  assert (Hr : ledger_readable (∅ : disk) = true) by reflexivity.
  assert (Hs : sums_safe 0 [500; -800; 7] = true) by reflexivity.
  split; [exact Hread | split; [exact Hw | split; [exact Hr | split; [exact Hs |]]]].
  exact (disks_after_updates_totals
           ledger_parse no_ToPrimitive nan_StringToNumber ledger_parse_stringify_safe
           [500; -800; 7] ∅ 0 Hread Hw Hr Hs).
Defined.

Lemma successive_updates_add_up_witness :
  getCumulativeSize ledger_parse ledger_500 = (ledger_500, inr (VNumber 500)) /\
  ledger_writable ledger_500 = true /\
  ledger_readable ledger_500 = true /\
  0 <= 500 + -200 /\
  Number_isSafeInteger (500 + -200 + 50) = true /\
  exists d',
    successive_updates ledger_parse no_ToPrimitive nan_StringToNumber (-200) 50
      ledger_500 =
      (d', inr (Num (500 + -200), Num (Z.max 0 (500 + -200 + 50)))) /\
    updateCumulativeSize ledger_parse no_ToPrimitive nan_StringToNumber (-200 + 50)
      ledger_500 =
      (d', inr (Num (Z.max 0 (500 + -200 + 50)))).
Proof.
  assert (Hread : getCumulativeSize ledger_parse ledger_500 =
                  (ledger_500, inr (VNumber 500))) by reflexivity.
  assert (Hw : ledger_writable ledger_500 = true) by reflexivity.
  assert (Hr : ledger_readable ledger_500 = true) by reflexivity.
  assert (H : 0 <= 500 + -200) by lia.
  assert (S1 : Number_isSafeInteger 500 = true) by reflexivity.
  assert (S2 : Number_isSafeInteger (-200) = true) by reflexivity.
  assert (S3 : Number_isSafeInteger 50 = true) by reflexivity.
  assert (S4 : Number_isSafeInteger (500 + -200) = true) by reflexivity.
  assert (S5 : Number_isSafeInteger (-200 + 50) = true) by reflexivity.
  assert (S6 : Number_isSafeInteger (500 + -200 + 50) = true) by reflexivity.
  split; [exact Hread | split; [exact Hw | split; [exact Hr | split; [exact H |]]]].
  split; [exact S6 |].
  exact (successive_updates_add_up
           ledger_parse no_ToPrimitive nan_StringToNumber ledger_parse_stringify_safe
           (-200) 50 500 ledger_500 Hread Hw Hr H S1 S2 S3 S4 S5 S6).
Defined.


Lemma deleteReportFile_unchanged_iff_not_unlinked_witness :
  "/srv/reports/none.pdf" <> CUMULATIVE_SIZE_FILE /\
  unlink "/srv/reports/none.pdf" report_and_ledger_500 =
    (report_and_ledger_500, inl (FsError ENOENT)) /\
  deleteReportFile ledger_parse no_ToPrimitive nan_StringToNumber
    "/srv/reports/none.pdf" report_and_ledger_500 =
    (report_and_ledger_500, inr false).
Proof.
  assert (Hne : "/srv/reports/none.pdf" <> CUMULATIVE_SIZE_FILE)
    by (vm_compute; discriminate).
  split; [exact Hne | split; [reflexivity |]].
  apply (proj2 (deleteReportFile_unchanged_iff_not_unlinked
                  ledger_parse no_ToPrimitive nan_StringToNumber
                  "/srv/reports/none.pdf" report_and_ledger_500 Hne)).
  intros d1 H. vm_compute in H. discriminate H.
Defined.

Lemma deleteReportFile_unwritable_ledger_witness :
  stat stored_report read_only_ledger_disk = (read_only_ledger_disk, inr 5) /\
  unlink stored_report read_only_ledger_disk =
    (delete stored_report read_only_ledger_disk, inr tt) /\
  stored_report <> CUMULATIVE_SIZE_FILE /\
  ledger_writable read_only_ledger_disk = false /\
  deleteReportFile ledger_parse no_ToPrimitive nan_StringToNumber stored_report
    read_only_ledger_disk =
    (delete stored_report read_only_ledger_disk, inr false).
Proof.
  assert (Hs : stat stored_report read_only_ledger_disk =
               (read_only_ledger_disk, inr 5)) by reflexivity.
  assert (Hu : unlink stored_report read_only_ledger_disk =
               (delete stored_report read_only_ledger_disk, inr tt)) by reflexivity.
  assert (Hne : stored_report <> CUMULATIVE_SIZE_FILE) by (vm_compute; discriminate).
  assert (Hw : ledger_writable read_only_ledger_disk = false) by reflexivity.
  split; [exact Hs | split; [exact Hu | split; [exact Hne | split; [exact Hw |]]]].
  exact (proj1 (deleteReportFile_unwritable_ledger
                  ledger_parse no_ToPrimitive nan_StringToNumber stored_report
                  read_only_ledger_disk _ 5 Hs Hu Hne Hw)).
Defined.

Lemma upload_then_delete_restores_ledger_witness :
  getCumulativeSize ledger_parse served_ledger_500 =
    (served_ledger_500, inr (VNumber 500)) /\
  ledger_writable served_ledger_500 = true /\
  ledger_readable served_ledger_500 = true /\
  (exists sz, served_ledger_500 !! "/srv/reports" = Some (Directory sz)) /\
  Number_isSafeInteger (500 + Z.of_nat (String.length (content small_pdf_part))) = true /\
  fileFilter (part_meta small_pdf_part) = inr true /\
  exists w1 d2,
    handleFileUpload ledger_parse no_ToPrimitive nan_StringToNumber "/srv/reports"
      1700000000000 (1 # 2) [small_pdf_part]
      {| files := served_ledger_500; sent := [] |} = (w1, inr tt) /\
    deleteReportFile ledger_parse no_ToPrimitive nan_StringToNumber
      (path_join "/srv/reports"
         (storage_filename 1700000000000 (1 # 2) (part_meta small_pdf_part)))
      (files w1) = (d2, inr true) /\
    d2 !! path_join "/srv/reports"
            (storage_filename 1700000000000 (1 # 2) (part_meta small_pdf_part)) = None /\
    d2 !! CUMULATIVE_SIZE_FILE =
      Some (ledger_node served_ledger_500 (ledger_document (NumberToString 500))) /\
    forall p,
      p <> path_join "/srv/reports"
             (storage_filename 1700000000000 (1 # 2) (part_meta small_pdf_part)) ->
      p <> CUMULATIVE_SIZE_FILE -> d2 !! p = served_ledger_500 !! p.
Proof.
  assert (Hread : getCumulativeSize ledger_parse served_ledger_500 =
                  (served_ledger_500, inr (VNumber 500))) by reflexivity.
  assert (Hn : 0 <= 500) by lia.
  assert (Hw : ledger_writable served_ledger_500 = true) by reflexivity.
  assert (Hr : ledger_readable served_ledger_500 = true) by reflexivity.
  assert (Hdir : exists sz, served_ledger_500 !! "/srv/reports" = Some (Directory sz))
    by (exists 4096; reflexivity).
  assert (Hsafe : Number_isSafeInteger
                    (500 + Z.of_nat (String.length (content small_pdf_part))) = true)
    by reflexivity.
  assert (Hfilter : fileFilter (part_meta small_pdf_part) = inr true) by reflexivity.
  assert (Hsmall : Z.of_nat (String.length (content small_pdf_part)) <= limits_fileSize)
    by (vm_compute; discriminate).
  split; [exact Hread | split; [exact Hw | split; [exact Hr |]]].
  split; [exact Hdir | split; [exact Hsafe | split; [exact Hfilter |]]].
  exact (upload_then_delete_restores_ledger
           ledger_parse no_ToPrimitive nan_StringToNumber "/srv/reports"
           ledger_parse_stringify_safe 1700000000000 (1 # 2) small_pdf_part
           {| files := served_ledger_500; sent := [] |} 500
           Hread Hn Hw Hr Hdir Hsafe eq_refl Hfilter Hsmall).
Defined.
